(** * The chat store of the frontend (src/frontend/src/stores/chat.ts)

    A shallow embedding of the pinia store [useChatStore]: the per-research
    conversation states, the registry of WebSockets and the handlers that
    reconcile streamed frames into a transcript.

    JavaScript objects are shared by reference: the handlers installed by
    [connectWebSocket] keep the [conversation] object they captured, whatever
    the [conversations] map holds later.  The embedding therefore keeps the
    objects in two stores addressed by references (natural numbers), and the
    maps of the pinia store hold references. *)

From Stdlib Require Import ZArith String.
From stdpp Require Import base option list strings gmap.

Open Scope string_scope.
Open Scope list_scope.

(** ** Data model *)

(** [ChatMessage.role] *)
Inductive Role := user | assistant | system.

#[local] Set Warnings "-register-all".

(** The values of type [any] that travel through the store untouched
    (tool arguments and results). Numbers are kept as integers. *)
Inductive json :=
| JNull
| JBool (b : bool)
| JNum (n : Z)
| JStr (s : string)
| JArr (l : list json)
| JObj (l : list (string * json)).

(** An element of [ChatMessage.tool_uses]; [result?] and [error?] are optional. *)
Record ToolUse := {
  tool : string;
  arguments : list (string * json);
  result : option json;
  tool_error : option string;
}.

(** [interface ChatMessage]; [tool_uses?] is [None] when the property is absent. *)
Record ChatMessage := {
  role : Role;
  content : string;
  timestamp : string;
  tool_uses : option (list ToolUse);
}.

(** [interface ChatState]; [error: string | null]. *)
Record ChatState := {
  messages : list ChatMessage;
  isConnected : bool;
  isStreaming : bool;
  error : option string;
}.

Global Instance Role_eq_dec : EqDecision Role.
Proof. solve_decision. Defined.

(** What JavaScript throws, or rejects a promise with, in this file. *)
Inductive JsException :=
| Error (message : string)          (* new Error(message) *)
| SyntaxError                       (* JSON.parse on text that is not JSON *)
| TypeError                         (* a property read on null *)
| AxiosError (detail : option string) (* err.response?.data?.detail *)
| ErrorEvent.                       (* the event handed to ws.onerror *)

(** The outcome of a piece of code: it returns or it throws. *)
Inductive Completion (A : Type) :=
| Normal (a : A)
| Throw (e : JsException).
Arguments Normal {A} a.
Arguments Throw {A} e.

Global Instance Completion_ret : MRet Completion := @Normal.

Global Instance Completion_bind : MBind Completion := λ A B k m,
  match m with
  | Normal a => k a
  | Throw e => Throw e
  end.

(** [try { body } catch (e) { handler(e) }] *)
Definition try_catch {A} (body : Completion A) (handler : JsException → Completion A)
    : Completion A :=
  match body with
  | Normal a => Normal a
  | Throw e => handler e
  end.

(** The state of the promise returned by [connectWebSocket]. *)
Inductive PromiseState :=
| Pending
| Resolved
| Rejected (reason : JsException).

(** [WebSocket.readyState] *)
Inductive ReadyState := CONNECTING | OPEN | CLOSING | CLOSED.

Global Instance ReadyState_eq_dec : EqDecision ReadyState.
Proof. solve_decision. Defined.

(** The frame [sendWebSocketMessage] serialises: [{message, history}]. *)
Record SendFrame := {
  frame_message : string;
  frame_history : list ChatMessage;
}.

(** A WebSocket object together with what its handlers captured in
    [connectWebSocket]: the [conversation] object, the [researchId] and the
    promise's [resolve]/[reject].  [ws_sent] records the frames given to
    [ws.send], oldest first. *)
Record WebSocket := {
  url : string;
  readyState : ReadyState;
  ws_conversation : nat;
  ws_researchId : string;
  ws_promise : PromiseState;
  ws_sent : list SendFrame;
}.

(** The store: the three refs of [useChatStore] ([conversations],
    [activeResearchId], [websockets]), the two object stores and the lines
    written with [console.error]. *)
Record Store := {
  conversations : gmap string nat;
  activeResearchId : option string;
  websockets : gmap string nat;
  heap : gmap nat ChatState;
  sockets : gmap nat WebSocket;
  console : list string;
}.

(** ** Record updates *)

Definition set_messages (v : list ChatMessage) (c : ChatState) : ChatState :=
  {| messages := v; isConnected := isConnected c;
     isStreaming := isStreaming c; error := error c |}.
Definition set_isConnected (v : bool) (c : ChatState) : ChatState :=
  {| messages := messages c; isConnected := v;
     isStreaming := isStreaming c; error := error c |}.
Definition set_isStreaming (v : bool) (c : ChatState) : ChatState :=
  {| messages := messages c; isConnected := isConnected c;
     isStreaming := v; error := error c |}.
Definition set_error (v : option string) (c : ChatState) : ChatState :=
  {| messages := messages c; isConnected := isConnected c;
     isStreaming := isStreaming c; error := v |}.

Definition set_content (v : string) (m : ChatMessage) : ChatMessage :=
  {| role := role m; content := v; timestamp := timestamp m;
     tool_uses := tool_uses m |}.
Definition set_tool_uses (v : option (list ToolUse)) (m : ChatMessage) : ChatMessage :=
  {| role := role m; content := content m; timestamp := timestamp m;
     tool_uses := v |}.

Definition set_readyState (v : ReadyState) (w : WebSocket) : WebSocket :=
  {| url := url w; readyState := v; ws_conversation := ws_conversation w;
     ws_researchId := ws_researchId w; ws_promise := ws_promise w;
     ws_sent := ws_sent w |}.
Definition set_ws_promise (v : PromiseState) (w : WebSocket) : WebSocket :=
  {| url := url w; readyState := readyState w;
     ws_conversation := ws_conversation w; ws_researchId := ws_researchId w;
     ws_promise := v; ws_sent := ws_sent w |}.
Definition set_ws_sent (v : list SendFrame) (w : WebSocket) : WebSocket :=
  {| url := url w; readyState := readyState w;
     ws_conversation := ws_conversation w; ws_researchId := ws_researchId w;
     ws_promise := ws_promise w; ws_sent := v |}.

Definition set_conversations (v : gmap string nat) (st : Store) : Store :=
  {| conversations := v; activeResearchId := activeResearchId st;
     websockets := websockets st; heap := heap st; sockets := sockets st;
     console := console st |}.
Definition set_activeResearchId (v : option string) (st : Store) : Store :=
  {| conversations := conversations st; activeResearchId := v;
     websockets := websockets st; heap := heap st; sockets := sockets st;
     console := console st |}.
Definition set_websockets (v : gmap string nat) (st : Store) : Store :=
  {| conversations := conversations st; activeResearchId := activeResearchId st;
     websockets := v; heap := heap st; sockets := sockets st;
     console := console st |}.
Definition set_heap (v : gmap nat ChatState) (st : Store) : Store :=
  {| conversations := conversations st; activeResearchId := activeResearchId st;
     websockets := websockets st; heap := v; sockets := sockets st;
     console := console st |}.
Definition set_sockets (v : gmap nat WebSocket) (st : Store) : Store :=
  {| conversations := conversations st; activeResearchId := activeResearchId st;
     websockets := websockets st; heap := heap st; sockets := v;
     console := console st |}.
Definition set_console (v : list string) (st : Store) : Store :=
  {| conversations := conversations st; activeResearchId := activeResearchId st;
     websockets := websockets st; heap := heap st; sockets := sockets st;
     console := v |}.

(** A mutation of the object behind a reference: [conversation.f = v]. *)
Definition update_conversation (l : nat) (f : ChatState → ChatState) (st : Store) : Store :=
  set_heap (alter f l (heap st)) st.

Definition update_socket (w : nat) (f : WebSocket → WebSocket) (st : Store) : Store :=
  set_sockets (alter f w (sockets st)) st.

(** ** JavaScript primitives the store relies on *)

(** Truthiness of a [string | null | undefined]: only a non-empty string is truthy. *)
Definition truthy (s : option string) : bool :=
  match s with
  | Some s => negb (String.eqb s EmptyString)
  | None => false
  end.

(** [a || b] on such values. *)
Definition or_else (a : option string) (b : string) : string :=
  match a with
  | Some s => if String.eqb s EmptyString then b else s
  | None => b
  end.

(** [Array.prototype.slice(start, end)]: a negative index counts from the end,
    and both are clamped to the array. *)
Definition slice {A} (start end_ : Z) (l : list A) : list A :=
  let len := Z.of_nat (length l) in
  let rel (k : Z) := if (k <? 0)%Z then Z.max (len + k) 0 else Z.min k len in
  let s := rel start in
  let e := rel end_ in
  take (Z.to_nat (e - s)) (drop (Z.to_nat s) l).

(** [String.prototype.replace(pattern, replacement)] with a string pattern:
    the first occurrence only. *)
Fixpoint replace (pattern replacement s : string) : string :=
  if String.prefix pattern s
  then replacement +:+ String.substring (String.length pattern)
                         (String.length s - String.length pattern) s
  else match s with
       | EmptyString => EmptyString
       | String c s' => String c (replace pattern replacement s')
       end.

(** [array[array.length - 1]]: [undefined] on an empty array. *)
Definition last_message (ms : list ChatMessage) : option ChatMessage :=
  ms !! (length ms - 1).

(** ** Inbound frames *)

(** The object a frame parses to, read at the types of the wire format:
    [data.type] ([None] when the property is absent or not a string, so that
    it equals none of the four literals), [data.content], [data.tool] and
    [data.arguments]. *)
Record FrameData := {
  data_type : option string;
  data_content : string;
  data_tool : string;
  data_arguments : list (string * json);
}.

(** [event.data], by what [JSON.parse] makes of it. *)
Inductive EventData :=
| NotJson                  (* text that is not JSON *)
| JsonNull                 (* the text null *)
| JsonData (d : FrameData).

Definition JSON_parse (event_data : EventData) : Completion (option FrameData) :=
  match event_data with
  | NotJson => Throw SyntaxError
  | JsonNull => Normal None
  | JsonData d => Normal (Some d)
  end.

(** The first property read on [data], [data.type]: reading a property of
    [null] throws. *)
Definition read_properties (data : option FrameData) : Completion FrameData :=
  match data with
  | None => Throw TypeError
  | Some d => Normal d
  end.

(** ** Getters *)

Definition new_ChatState : ChatState :=
  {| messages := []; isConnected := false; isStreaming := false; error := None |}.

(** [getConversation]: the reference held for [researchId], after storing a
    new object when the map has none. *)
Definition getConversation (researchId : string) (st : Store) : nat * Store :=
  match conversations st !! researchId with
  | Some l => (l, st)
  | None =>
      let l := fresh (dom (heap st)) in
      (l, set_conversations (<[researchId := l]> (conversations st))
            (set_heap (<[l := new_ChatState]> (heap st)) st))
  end.

(** [currentConversation]; [!activeResearchId.value] holds of null and of
    the empty string. *)
Definition currentConversation (st : Store) : option nat * Store :=
  if negb (truthy (activeResearchId st)) then (None, st)
  else
    match activeResearchId st with
    | Some researchId =>
        let '(l, st') := getConversation researchId st in (Some l, st')
    | None => (None, st)
    end.

(** The object behind a reference handed out by [getConversation]. *)
Definition deref (l : nat) (st : Store) : ChatState :=
  default new_ChatState (heap st !! l).

(** [conversation.messages.push(m)] *)
Definition push (m : ChatMessage) (c : ChatState) : ChatState :=
  set_messages (messages c ++ [m]) c.

(** ** Actions *)

Definition setActiveResearch (researchId : string) (st : Store) : Store :=
  let st := set_activeResearchId (Some researchId) st in
  match conversations st !! researchId with
  | Some _ => st
  | None =>
      let l := fresh (dom (heap st)) in
      set_conversations (<[researchId := l]> (conversations st))
        (set_heap (<[l := new_ChatState]> (heap st)) st)
  end.

(** [response.data] of the send endpoint. *)
Record ResponseData := {
  response_content : string;
  response_timestamp : string;
  response_tool_uses : option (list ToolUse);
}.

(** [err.response?.data?.detail] *)
Definition err_detail (err : JsException) : option string :=
  match err with
  | AxiosError detail => detail
  | _ => None
  end.

(** The [catch] branch of [sendMessage]; the caller rethrows [err]. *)
Definition sendMessage_catch (conversation : nat) (err : JsException) (st : Store) : Store :=
  update_conversation conversation
    (set_error (Some (or_else (err_detail err) "Failed to send message"))) st.

(** [sendMessage] up to its [await]: [Normal l] when the request is under
    way ([l] is the captured [conversation]), [Throw err] when the promise
    is already rejected.  [now] is [new Date().toISOString()], [token] is
    [localStorage.getItem('token')]. *)
Definition sendMessage_start (researchId message now : string)
    (token : option string) (st : Store) : Completion nat * Store :=
  let '(conversation, st) := getConversation researchId st in
  let userMessage :=
    {| role := user; content := message; timestamp := now; tool_uses := None |} in
  let st := update_conversation conversation (push userMessage) st in
  let st := update_conversation conversation (set_error None) st in
  if negb (truthy token)
  then let err := Error "Not authenticated" in
       (Throw err, sendMessage_catch conversation err st)
  else (Normal conversation, st).

(** [sendMessage] from its [await] on: [response] is what [axios.post]
    settled with. *)
Definition sendMessage_settle (conversation : nat)
    (response : Completion ResponseData) (st : Store) : Completion unit * Store :=
  match response with
  | Normal data =>
      let assistantMessage :=
        {| role := assistant; content := response_content data;
           timestamp := response_timestamp data;
           tool_uses := response_tool_uses data |} in
      (Normal tt, update_conversation conversation (push assistantMessage) st)
  | Throw err => (Throw err, sendMessage_catch conversation err st)
  end.

(** [sendMessage] when nothing else runs while it awaits the response. *)
Definition sendMessage (researchId message now : string) (token : option string)
    (response : Completion ResponseData) (st : Store) : Completion unit * Store :=
  match sendMessage_start researchId message now token st with
  | (Normal conversation, st) => sendMessage_settle conversation response st
  | (Throw err, st) => (Throw err, st)
  end.

(** [ws.close()]: starts the closing handshake unless it has started already;
    the close event comes later. *)
Definition ws_close (w : nat) (st : Store) : Store :=
  update_socket w
    (λ ws, match readyState ws with
           | CLOSING | CLOSED => ws
           | _ => set_readyState CLOSING ws
           end) st.

(** [import.meta.env.VITE_API_URL || 'http://localhost:8000'] *)
Definition API_BASE_URL (VITE_API_URL : option string) : string :=
  or_else VITE_API_URL "http://localhost:8000".

(** [connectWebSocket] up to the return of the promise's executor: the
    state of the promise, the socket created (if any) and the store. *)
Definition connectWebSocket (VITE_API_URL : option string) (researchId : string)
    (token : option string) (st : Store) : PromiseState * option nat * Store :=
  let '(conversation, st) := getConversation researchId st in
  let st :=
    match websockets st !! researchId with
    | Some existingWs => ws_close existingWs st
    | None => st
    end in
  if negb (truthy token)
  then (Rejected (Error "Not authenticated"), None, st)
  else
    let wsUrl :=
      replace "http" "ws" (API_BASE_URL VITE_API_URL) +:+ "/api/v1/chat/ws/"
      +:+ researchId in
    let ws := fresh (dom (sockets st)) in
    (Pending, Some ws,
     set_sockets (<[ws := {| url := wsUrl; readyState := CONNECTING;
                            ws_conversation := conversation;
                            ws_researchId := researchId;
                            ws_promise := Pending; ws_sent := [] |}]> (sockets st)) st).

(** [resolve()] and [reject(e)] settle a promise once. *)
Definition settle (v : PromiseState) (ws : WebSocket) : WebSocket :=
  match ws_promise ws with
  | Pending => set_ws_promise v ws
  | _ => ws
  end.

(** [ws.onopen], run when the handshake has completed. *)
Definition ws_onopen (w : nat) (st : Store) : Store :=
  match sockets st !! w with
  | None => st
  | Some ws =>
      let st := update_socket w (set_readyState OPEN) st in
      let st := update_conversation (ws_conversation ws) (set_isConnected true) st in
      let st := update_conversation (ws_conversation ws) (set_error None) st in
      let st := set_websockets (<[ws_researchId ws := w]> (websockets st)) st in
      update_socket w (settle Resolved) st
  end.

(** The body of [ws.onmessage] after the frame has been parsed, on the
    captured [conversation]. *)
Definition handle_frame (now : string) (data : FrameData) (conversation : ChatState) : ChatState :=
  if decide (data_type data = Some "chunk") then
    if isStreaming conversation then
      match last_message (messages conversation) with
      | Some lastMsg =>
          if decide (role lastMsg = assistant)
          then set_messages
                 (<[length (messages conversation) - 1 :=
                      set_content (content lastMsg +:+ data_content data) lastMsg]>
                    (messages conversation)) conversation
          else push {| role := assistant; content := data_content data;
                       timestamp := now; tool_uses := None |} conversation
      | None =>
          push {| role := assistant; content := data_content data;
                  timestamp := now; tool_uses := None |} conversation
      end
    else
      push {| role := assistant; content := data_content data;
              timestamp := now; tool_uses := None |}
        (set_isStreaming true conversation)
  else if decide (data_type data = Some "complete") then
    set_isStreaming false conversation
  else if decide (data_type data = Some "error") then
    set_isStreaming false (set_error (Some (data_content data)) conversation)
  else if decide (data_type data = Some "tool_use") then
    match last_message (messages conversation) with
    | Some lastMsg =>
        if decide (role lastMsg = assistant)
        then set_messages
               (<[length (messages conversation) - 1 :=
                    set_tool_uses
                      (Some (default [] (tool_uses lastMsg) ++
                             [{| tool := data_tool data;
                                 arguments := data_arguments data;
                                 result := None; tool_error := None |}]))
                      lastMsg]>
                  (messages conversation)) conversation
        else conversation
    | None => conversation
    end
  else conversation.

(** [ws.onmessage]: the whole body sits in [try]; the [catch] only logs.
    A [Throw] here would be an exception escaping the handler. *)
Definition ws_onmessage (w : nat) (now : string) (event_data : EventData) (st : Store)
    : Completion Store :=
  match sockets st !! w with
  | None => Normal st
  | Some ws =>
      try_catch
        (data ← JSON_parse event_data;
         d ← read_properties data;
         Normal (update_conversation (ws_conversation ws) (handle_frame now d) st))
        (λ error,
           Normal (set_console (console st ++ ["Failed to parse WebSocket message:"]) st))
  end.

(** [ws.onerror]; the platform fires the error event on a connection that
    has failed, after it has set [readyState] to closed, and fires the
    close event next. *)
Definition ws_onerror (w : nat) (st : Store) : Store :=
  match sockets st !! w with
  | None => st
  | Some ws =>
      let st := update_socket w (set_readyState CLOSED) st in
      let st := set_console (console st ++ ["WebSocket error:"]) st in
      let st := update_conversation (ws_conversation ws)
                  (set_error (Some "WebSocket connection error")) st in
      let st := update_conversation (ws_conversation ws) (set_isConnected false) st in
      update_socket w (settle (Rejected ErrorEvent)) st
  end.

(** [ws.onclose], run when the connection has closed. *)
Definition ws_onclose (w : nat) (st : Store) : Store :=
  match sockets st !! w with
  | None => st
  | Some ws =>
      let st := update_socket w (set_readyState CLOSED) st in
      let st := update_conversation (ws_conversation ws) (set_isConnected false) st in
      let st := update_conversation (ws_conversation ws) (set_isStreaming false) st in
      set_websockets (delete (ws_researchId ws) (websockets st)) st
  end.

(** [ws.send(JSON.stringify(frame))] on an open socket. *)
Definition ws_send (w : nat) (frame : SendFrame) (st : Store) : Store :=
  update_socket w (λ ws, set_ws_sent (ws_sent ws ++ [frame]) ws) st.

(** [!ws || ws.readyState !== WebSocket.OPEN] *)
Definition not_open (ws : option nat) (st : Store) : bool :=
  match ws with
  | None => true
  | Some w =>
      match sockets st !! w with
      | Some s => negb (bool_decide (readyState s = OPEN))
      | None => true
      end
  end.

Definition sendWebSocketMessage (researchId message now : string) (st : Store)
    : Completion unit * Store :=
  let '(conversation, st) := getConversation researchId st in
  let ws := websockets st !! researchId in
  if not_open ws st
  then (Throw (Error "WebSocket not connected"), st)
  else
    let userMessage :=
      {| role := user; content := message; timestamp := now; tool_uses := None |} in
    let st := update_conversation conversation (push userMessage) st in
    match ws with
    | Some w =>
        (Normal tt,
         ws_send w {| frame_message := message;
                      frame_history := slice 0 (-1) (messages (deref conversation st)) |} st)
    | None => (Normal tt, st)
    end.

Definition disconnectWebSocket (researchId : string) (st : Store) : Store :=
  let st :=
    match websockets st !! researchId with
    | Some ws => set_websockets (delete researchId (websockets st)) (ws_close ws st)
    | None => st
    end in
  let '(conversation, st) := getConversation researchId st in
  let st := update_conversation conversation (set_isConnected false) st in
  update_conversation conversation (set_isStreaming false) st.

Definition clearConversation (researchId : string) (st : Store) : Store :=
  let '(conversation, st) := getConversation researchId st in
  let st := update_conversation conversation (set_messages []) st in
  update_conversation conversation (set_error None) st.

(** [websockets.forEach(ws => ws.close())] visits every registered socket;
    closing one does not depend on the others, so the order is immaterial. *)
Definition clearAllConversations (st : Store) : Store :=
  let st := foldr ws_close st (map_to_list (websockets st)).*2 in
  let st := set_websockets ∅ st in
  let st := set_conversations ∅ st in
  set_activeResearchId None st.

(** The store when the application starts. *)
Definition empty_store : Store :=
  {| conversations := ∅; activeResearchId := None; websockets := ∅;
     heap := ∅; sockets := ∅; console := [] |}.

(** ** The store as a transition system *)

(** One call of an exported function, or one event delivered to a handler.
    The continuation of [sendMessage] runs on a conversation it captured, a
    handler on a socket that was created. *)
Inductive step : Store → Store → Prop :=
| step_getConversation researchId st :
    step st (getConversation researchId st).2
| step_currentConversation st :
    step st (currentConversation st).2
| step_setActiveResearch researchId st :
    step st (setActiveResearch researchId st)
| step_sendMessage_start researchId message now token st :
    step st (sendMessage_start researchId message now token st).2
| step_sendMessage_settle conversation response st :
    is_Some (heap st !! conversation) →
    step st (sendMessage_settle conversation response st).2
| step_connectWebSocket env researchId token st :
    step st (connectWebSocket env researchId token st).2
| step_ws_onopen w st :
    step st (ws_onopen w st)
| step_ws_onmessage w now event_data st st' :
    ws_onmessage w now event_data st = Normal st' →
    step st st'
| step_ws_onerror w st :
    step st (ws_onerror w st)
| step_ws_onclose w st :
    step st (ws_onclose w st)
| step_sendWebSocketMessage researchId message now st :
    step st (sendWebSocketMessage researchId message now st).2
| step_disconnectWebSocket researchId st :
    step st (disconnectWebSocket researchId st)
| step_clearConversation researchId st :
    step st (clearConversation researchId st)
| step_clearAllConversations st :
    step st (clearAllConversations st).

(** The stores the application can be in. *)
Definition reachable (st : Store) : Prop := rtc step empty_store st.

(** Every reference the store holds points to an object, and two research
    ids never share a conversation object. *)
Record wf (st : Store) : Prop := {
  wf_conversations : ∀ k l, conversations st !! k = Some l → is_Some (heap st !! l);
  wf_injective : ∀ k1 k2 l,
    conversations st !! k1 = Some l → conversations st !! k2 = Some l → k1 = k2;
  wf_websockets : ∀ k w, websockets st !! k = Some w → is_Some (sockets st !! w);
  wf_sockets : ∀ w ws, sockets st !! w = Some ws → is_Some (heap st !! ws_conversation ws);
}.

(** How one transition may change the [conversations] map: not at all, by
    one new object for a research id that had none, or by clearing it. *)
Definition same_or_new (st st' : Store) : Prop :=
  conversations st' = conversations st ∨
  (∃ k, conversations st !! k = None ∧
        conversations st' = <[k := fresh (dom (heap st))]> (conversations st)) ∨
  conversations st' = ∅.

(** Frames of the streaming protocol. *)
Definition is_chunk (text : string) (d : FrameData) : Prop :=
  data_type d = Some "chunk" ∧ data_content d = text.
Definition is_complete (d : FrameData) : Prop :=
  data_type d = Some "complete".
Definition is_error (text : string) (d : FrameData) : Prop :=
  data_type d = Some "error" ∧ data_content d = text.

(** A type that is none of the four the handler knows. *)
Definition unknown_type (d : FrameData) : Prop :=
  data_type d ≠ Some "chunk" ∧ data_type d ≠ Some "complete" ∧
  data_type d ≠ Some "error" ∧ data_type d ≠ Some "tool_use".

(** The research id [k] has an open stream: the registry holds socket [w]
    for it, and that socket, [ws], is open. *)
Definition open_stream (k : string) (w : nat) (ws : WebSocket) (st : Store) : Prop :=
  websockets st !! k = Some w ∧ sockets st !! w = Some ws ∧ readyState ws = OPEN.

(** The message a first chunk starts, and the message a send adds. *)
Definition assistant_message (text now : string) : ChatMessage :=
  {| role := assistant; content := text; timestamp := now; tool_uses := None |}.
Definition user_message (text now : string) : ChatMessage :=
  {| role := user; content := text; timestamp := now; tool_uses := None |}.

(** ** Sample data *)

(** A frame of the given type carrying the given text. *)
Definition frame (type text : string) : FrameData :=
  {| data_type := Some type; data_content := text; data_tool := EmptyString;
     data_arguments := [] |}.

(** The store after [connectWebSocket("r1")] with a token and the open event
    of the socket it created: conversation object 0, socket 0. *)
Definition store_connected : Store :=
  ws_onopen 0 (connectWebSocket None "r1" (Some "token") empty_store).2.

(** The store after [connectWebSocket("r1")], then [clearAllConversations]
    while the socket is still connecting, then the open event of the socket,
    then [getConversation("r1")]: socket 0 is registered and open for "r1",
    its handlers hold conversation object 0, and "r1" has object 1. *)
Definition store_orphan : Store :=
  (getConversation "r1"
     (ws_onopen 0
        (clearAllConversations
           (connectWebSocket None "r1" (Some "token") empty_store).2))).2.

(** The store a handler left, for building the sample stores below. *)
Definition returned (m : Completion Store) : Store :=
  match m with
  | Normal st => st
  | Throw _ => empty_store
  end.

(** [store_connected] after a first chunk "Hel": the conversation is streaming. *)
Definition store_streaming : Store :=
  returned (ws_onmessage 0 "12:00:01" (JsonData (frame "chunk" "Hel")) store_connected).

(** [store_connected] after a first chunk "A" and then a streaming send of
    "q" by the user: the conversation is streaming and its last message is
    the user's. *)
Definition store_interrupted : Store :=
  (sendWebSocketMessage "r1" "q" "12:00:02"
     (returned (ws_onmessage 0 "12:00:01" (JsonData (frame "chunk" "A"))
                  store_connected))).2.

(** ** Sequences of frames *)

(** The frames of one socket, each with its arrival time, handed to
    [ws.onmessage] one after the other in the order of arrival. *)
Fixpoint deliver (w : nat) (frames : list (string * EventData)) (st : Store)
    : Completion Store :=
  match frames with
  | [] => Normal st
  | (now, event_data) :: rest =>
      st' ← ws_onmessage w now event_data st; deliver w rest st'
  end.

(** The text a run of chunks carries. *)
Definition chunks_text (ds : list (string * FrameData)) : string :=
  foldr (λ d acc, data_content d.2 +:+ acc) EmptyString ds.

(** The [ToolUse] a [tool_use] frame announces: no result yet. *)
Definition announced_tool (d : FrameData) : ToolUse :=
  {| tool := data_tool d; arguments := data_arguments d;
     result := None; tool_error := None |}.

(** A socket on which [close()] has been called, or that has closed. *)
Definition closing_or_closed (ws : WebSocket) : Prop :=
  readyState ws = CLOSING ∨ readyState ws = CLOSED.

(** The registry entries are sound: a research id is registered with a
    socket that exists, was created for that research id, and is past its
    handshake. *)
Definition registry_sound (st : Store) : Prop :=
  ∀ k w, websockets st !! k = Some w →
    ∃ ws, sockets st !! w = Some ws ∧ ws_researchId ws = k ∧
          readyState ws ≠ CONNECTING.



(** ** The chat panel (src/frontend/src/components/chat/AIChatPanel.vue) *)

Module AIChatPanel.

(** [defineProps]; [enableStreaming?] is falsy when absent. *)
Record Props := {
  researchId : string;
  enableStreaming : bool;
}.

(** The refs of the component that its [sendMessage] reads and writes. *)
Record Panel := {
  messageInput : string;
  isLoading : bool;
}.

Definition set_messageInput (v : string) (p : Panel) : Panel :=
  {| messageInput := v; isLoading := isLoading p |}.
Definition set_isLoading (v : bool) (p : Panel) : Panel :=
  {| messageInput := messageInput p; isLoading := v |}.

Section SendMessage.

(** [String.prototype.trim] *)
Variable trim : string → string.

(** [sendMessage] of the panel.  The computed [conversation] is
    [chatStore.getConversation(props.researchId)]; [token] and [response]
    are what the store's [sendMessage] meets; [scroll] is the outcome of
    [await nextTick(); scrollToBottom()], which touch only the DOM. *)
Definition sendMessage (props : Props) (now : string) (token : option string)
    (response : Completion ResponseData) (scroll : Completion unit)
    (p : Panel) (st : Store) : Panel * Store :=
  let message := trim (messageInput p) in
  if negb (truthy (Some message)) then (p, st)
  else if isLoading p then (p, st)
  else
    let '(conversation, st) := getConversation (researchId props) st in
    if isStreaming (deref conversation st) then (p, st)
    else
      let p := set_isLoading true p in
      let '(sent, st) :=
        if enableStreaming props && isConnected (deref conversation st)
        then sendWebSocketMessage (researchId props) message now st
        else sendMessage (researchId props) message now token response st in
      let '(outcome, p) :=
        match sent with
        | Normal _ => (scroll, set_messageInput EmptyString p)
        | Throw err => (Throw err, p)
        end in
      let st :=
        match outcome with
        | Normal _ => st
        | Throw _ => set_console (console st ++ ["Failed to send message:"]) st
        end in
      (set_isLoading false p, st).

(** [onUnmounted] *)
Definition onUnmounted (props : Props) (st : Store) : Store :=
  if enableStreaming props then disconnectWebSocket (researchId props) st else st.

End SendMessage.

End AIChatPanel.

(** ** Basic facts *)

Lemma set_heap_same st : set_heap (heap st) st = st.
Proof. by destruct st. Qed.

Lemma update_conversation_lookup l f c st :
  heap st !! l = Some c →
  update_conversation l f st = set_heap (<[l := f c]> (heap st)) st.
Proof.
  intros Hl. unfold update_conversation. f_equal.
  apply map_eq. intros j. rewrite lookup_alter, lookup_insert.
  case_decide; subst; [by rewrite Hl | done].
Qed.

Lemma update_conversation_id l f st :
  (∀ c, heap st !! l = Some c → f c = c) → update_conversation l f st = st.
Proof.
  intros Hf. unfold update_conversation. rewrite alter_id by done.
  apply set_heap_same.
Qed.

Lemma deref_lookup l c st : heap st !! l = Some c → deref l st = c.
Proof. intros Hl. unfold deref. by rewrite Hl. Qed.

Lemma deref_update_conversation l f st :
  is_Some (heap st !! l) → deref l (update_conversation l f st) = f (deref l st).
Proof.
  intros [c Hc]. unfold deref, update_conversation. simpl.
  by rewrite lookup_alter_eq, Hc.
Qed.

Lemma deref_update_conversation_ne l l' f st :
  l ≠ l' → deref l' (update_conversation l f st) = deref l' st.
Proof.
  intros Hne. unfold deref, update_conversation. simpl.
  by rewrite lookup_alter_ne.
Qed.

Lemma slice_init {A} (l : list A) (x : A) : slice 0 (-1) (l ++ [x]) = l.
Proof.
  unfold slice. rewrite length_app. simpl.
  replace (Z.of_nat (length l + 1) + -1)%Z with (Z.of_nat (length l)) by lia.
  rewrite Z.max_l, Z.min_l by lia. simpl. rewrite Z.sub_0_r, Nat2Z.id.
  change (Z.to_nat 0) with 0. by rewrite drop_0, take_app_length.
Qed.

Lemma last_message_snoc ms m : last_message (ms ++ [m]) = Some m.
Proof.
  unfold last_message. rewrite length_app. simpl.
  replace (length ms + 1 - 1) with (length ms) by lia.
  by rewrite list_lookup_middle.
Qed.

Lemma insert_last_snoc (ms : list ChatMessage) m m' :
  <[length (ms ++ [m]) - 1 := m']> (ms ++ [m]) = ms ++ [m'].
Proof.
  rewrite length_app. simpl.
  replace (length ms + 1 - 1) with (length ms + 0) by lia.
  by rewrite insert_app_r.
Qed.

Lemma last_message_None ms : last_message ms = None → ms = [].
Proof.
  unfold last_message. intros H. apply lookup_ge_None in H.
  destruct ms; [done | simpl in H; lia].
Qed.

Lemma last_message_Some ms m :
  last_message ms = Some m → ∃ ms', ms = ms' ++ [m].
Proof.
  destruct ms as [|x ms] using rev_ind; [done |].
  rewrite last_message_snoc. intros [= ->]. eauto.
Qed.

(** ** The invariant *)

Lemma wf_empty_store : wf empty_store.
Proof. split; simpl; intros *; by rewrite ?lookup_empty. Qed.

Lemma wf_update_conversation l f st : wf st → wf (update_conversation l f st).
Proof.
  intros [H1 H2 H3 H4]. split; simpl; try done.
  - intros k l' Hk. rewrite lookup_alter_is_Some. eauto.
  - intros w ws Hw. rewrite lookup_alter_is_Some. eauto.
Qed.

Lemma wf_update_socket w f st :
  (∀ ws, ws_conversation (f ws) = ws_conversation ws) →
  wf st → wf (update_socket w f st).
Proof.
  intros Hf [H1 H2 H3 H4]. split; simpl; try done.
  - intros k w' Hk. rewrite lookup_alter_is_Some. eauto.
  - intros w' ws. rewrite lookup_alter. case_decide; [subst | by eauto].
    destruct (sockets st !! w') as [ws0|] eqn:E; simpl; [| done].
    intros [= <-]. rewrite Hf. eauto.
Qed.

Lemma wf_ws_close w st : wf st → wf (ws_close w st).
Proof.
  apply wf_update_socket. intros ws. by destruct (readyState ws).
Qed.

Lemma wf_set_console v st : wf st → wf (set_console v st).
Proof. by intros []. Qed.

Lemma wf_set_activeResearchId v st : wf st → wf (set_activeResearchId v st).
Proof. by intros []. Qed.

Lemma wf_delete_websocket k st :
  wf st → wf (set_websockets (delete k (websockets st)) st).
Proof.
  intros [H1 H2 H3 H4]. split; simpl; try done.
  intros k' w. rewrite lookup_delete_Some. intros [_ ?]. eauto.
Qed.

Lemma wf_insert_websocket k w st :
  is_Some (sockets st !! w) →
  wf st → wf (set_websockets (<[k := w]> (websockets st)) st).
Proof.
  intros Hw [H1 H2 H3 H4]. split; simpl; try done.
  intros k' w'. rewrite lookup_insert_Some. intros [[_ <-]|[_ ?]]; eauto.
Qed.

(** Storing a new conversation object under an id that has none. *)
Lemma wf_new_conversation k st :
  conversations st !! k = None →
  wf st →
  wf (set_conversations (<[k := fresh (dom (heap st))]> (conversations st))
        (set_heap (<[fresh (dom (heap st)) := new_ChatState]> (heap st)) st)).
Proof.
  intros Hk [H1 H2 H3 H4].
  assert (Hfresh : heap st !! fresh (dom (heap st)) = None).
  { apply not_elem_of_dom, is_fresh. }
  split; simpl; try done.
  - intros k' l. rewrite lookup_insert_Some, lookup_insert_is_Some.
    intros [[_ <-]|[_ Hl]]; [by left | right].
    split; [| by eauto]. intros <-. apply H1 in Hl. rewrite Hfresh in Hl.
    by destruct Hl.
  - intros k1 k2 l. rewrite !lookup_insert_Some.
    intros [[<- <-]|[? Hl1]] [[<- Hl]|[? Hl2]]; try done.
    + apply H1 in Hl2. rewrite Hfresh in Hl2. by destruct Hl2.
    + subst l. apply H1 in Hl1. rewrite Hfresh in Hl1. by destruct Hl1.
    + eauto.
  - intros w ws Hw. rewrite lookup_insert_is_Some'. eauto.
Qed.

Lemma wf_getConversation k st : wf st → wf (getConversation k st).2.
Proof.
  intros Hwf. unfold getConversation.
  destruct (conversations st !! k) eqn:E; simpl; [done |].
  by apply wf_new_conversation.
Qed.

(** [getConversation] hands out the reference the map holds afterwards, and
    that reference points to an object. *)
Lemma getConversation_lookup k st :
  wf st →
  conversations (getConversation k st).2 !! k = Some (getConversation k st).1 ∧
  is_Some (heap (getConversation k st).2 !! (getConversation k st).1).
Proof.
  intros Hwf. unfold getConversation.
  destruct (conversations st !! k) eqn:E; simpl.
  - split; [done |]. by eapply wf_conversations.
  - by rewrite !lookup_insert_eq.
Qed.

(** It leaves the registry and the sockets alone. *)
Lemma getConversation_sockets k st :
  websockets (getConversation k st).2 = websockets st ∧
  sockets (getConversation k st).2 = sockets st.
Proof. unfold getConversation. by destruct (conversations st !! k). Qed.

Lemma wf_setActiveResearch k st : wf st → wf (setActiveResearch k st).
Proof.
  intros Hwf. unfold setActiveResearch. simpl.
  destruct (conversations st !! k) eqn:E.
  - by apply wf_set_activeResearchId.
  - by apply (wf_new_conversation k (set_activeResearchId (Some k) st)),
      wf_set_activeResearchId.
Qed.

Lemma wf_foldr_ws_close ws st : wf st → wf (foldr ws_close st ws).
Proof. intros Hwf. induction ws; simpl; [done | by apply wf_ws_close]. Qed.

Lemma heap_foldr_ws_close ws st : heap (foldr ws_close st ws) = heap st.
Proof. induction ws; simpl; [done | by rewrite <- IHws]. Qed.

Lemma wf_clearAllConversations st : wf st → wf (clearAllConversations st).
Proof.
  intros Hwf. unfold clearAllConversations.
  pose proof (wf_foldr_ws_close (map_to_list (websockets st)).*2 st Hwf) as [H1 H2 H3 H4].
  split; simpl; try done; intros *; by rewrite lookup_empty.
Qed.

Lemma wf_sendMessage_catch l err st : wf st → wf (sendMessage_catch l err st).
Proof. apply wf_update_conversation. Qed.

Lemma wf_sendMessage_start k message now token st :
  wf st → wf (sendMessage_start k message now token st).2.
Proof.
  intros Hwf. unfold sendMessage_start.
  pose proof (wf_getConversation k st Hwf) as Hg.
  destruct (getConversation k st) as [l st0]. simpl in Hg.
  destruct (negb (truthy token)); simpl;
    unfold sendMessage_catch; by repeat apply wf_update_conversation.
Qed.

Lemma wf_sendMessage_settle l response st :
  wf st → wf (sendMessage_settle l response st).2.
Proof.
  intros Hwf. destruct response; simpl; by apply wf_update_conversation.
Qed.

Lemma wf_connectWebSocket env k token st :
  wf st → wf (connectWebSocket env k token st).2.
Proof.
  intros Hwf. unfold connectWebSocket.
  pose proof (wf_getConversation k st Hwf) as Hg.
  pose proof (getConversation_lookup k st Hwf) as [_ Hl].
  destruct (getConversation k st) as [l st0]. simpl in Hg, Hl.
  set (st1 := match websockets st0 !! k with
              | Some existingWs => ws_close existingWs st0
              | None => st0
              end).
  assert (Hwf1 : wf st1).
  { unfold st1. destruct (websockets st0 !! k); [by apply wf_ws_close | done]. }
  assert (Hl1 : is_Some (heap st1 !! l)).
  { unfold st1. by destruct (websockets st0 !! k). }
  destruct (negb (truthy token)); simpl; [done |].
  destruct Hwf1 as [H1 H2 H3 H4]. split; simpl; try done.
  - intros k' w Hw. rewrite lookup_insert_is_Some'. eauto.
  - intros w ws. rewrite lookup_insert_Some. intros [[_ <-]|[_ ?]]; simpl; eauto.
Qed.

Lemma wf_settle v w st : wf st → wf (update_socket w (settle v) st).
Proof.
  apply wf_update_socket. intros ws. unfold settle. by destruct (ws_promise ws).
Qed.

Lemma wf_ws_onopen w st : wf st → wf (ws_onopen w st).
Proof.
  intros Hwf. unfold ws_onopen. destruct (sockets st !! w) as [ws|] eqn:E; [| done].
  apply wf_settle, wf_insert_websocket.
  - simpl. rewrite !lookup_alter_is_Some. eauto.
  - by repeat apply wf_update_conversation; apply wf_update_socket.
Qed.

Lemma wf_ws_onmessage w now event_data st st' :
  ws_onmessage w now event_data st = Normal st' → wf st → wf st'.
Proof.
  unfold ws_onmessage. intros H Hwf.
  destruct (sockets st !! w) as [ws|]; [| by inversion H; subst].
  destruct event_data as [| |d]; simpl in H; inversion H; subst.
  - by apply wf_set_console.
  - by apply wf_set_console.
  - by apply wf_update_conversation.
Qed.

Lemma wf_ws_onerror w st : wf st → wf (ws_onerror w st).
Proof.
  intros Hwf. unfold ws_onerror. destruct (sockets st !! w) as [ws|]; [| done].
  by apply wf_settle; repeat apply wf_update_conversation; apply wf_set_console,
    wf_update_socket.
Qed.

Lemma wf_ws_onclose w st : wf st → wf (ws_onclose w st).
Proof.
  intros Hwf. unfold ws_onclose. destruct (sockets st !! w) as [ws|]; [| done].
  apply (wf_delete_websocket (ws_researchId ws)
           (update_conversation _ _ (update_conversation _ _ (update_socket _ _ st)))).
  by repeat apply wf_update_conversation; apply wf_update_socket.
Qed.

Lemma wf_sendWebSocketMessage k message now st :
  wf st → wf (sendWebSocketMessage k message now st).2.
Proof.
  intros Hwf. unfold sendWebSocketMessage.
  pose proof (wf_getConversation k st Hwf) as Hg.
  destruct (getConversation k st) as [l st0]. simpl in Hg.
  destruct (not_open _ _); simpl; [done |].
  destruct (websockets st0 !! k); simpl.
  - by apply wf_update_socket, wf_update_conversation.
  - by apply wf_update_conversation.
Qed.

Lemma wf_disconnectWebSocket k st : wf st → wf (disconnectWebSocket k st).
Proof.
  intros Hwf. unfold disconnectWebSocket.
  set (st1 := match websockets st !! k with
              | Some ws => set_websockets (delete k (websockets st)) (ws_close ws st)
              | None => st
              end).
  assert (Hwf1 : wf st1).
  { unfold st1. destruct (websockets st !! k) as [w|]; [| done].
    by apply (wf_delete_websocket k (ws_close w st)), wf_ws_close. }
  pose proof (wf_getConversation k st1 Hwf1) as Hg.
  destruct (getConversation k st1) as [l st2]. simpl in Hg.
  by repeat apply wf_update_conversation.
Qed.

Lemma wf_clearConversation k st : wf st → wf (clearConversation k st).
Proof.
  intros Hwf. unfold clearConversation.
  pose proof (wf_getConversation k st Hwf) as Hg.
  destruct (getConversation k st) as [l st0]. simpl in Hg.
  by repeat apply wf_update_conversation.
Qed.

Lemma wf_step st st' : step st st' → wf st → wf st'.
Proof.
  destruct 1; intros Hwf.
  - by apply wf_getConversation.
  - unfold currentConversation.
    destruct (negb (truthy (activeResearchId st))); [done |].
    destruct (activeResearchId st) as [k|]; [| done].
    pose proof (wf_getConversation k st Hwf) as Hg.
    by destruct (getConversation k st).
  - by apply wf_setActiveResearch.
  - by apply wf_sendMessage_start.
  - by apply wf_sendMessage_settle.
  - by apply wf_connectWebSocket.
  - by apply wf_ws_onopen.
  - by eapply wf_ws_onmessage.
  - by apply wf_ws_onerror.
  - by apply wf_ws_onclose.
  - by apply wf_sendWebSocketMessage.
  - by apply wf_disconnectWebSocket.
  - by apply wf_clearConversation.
  - by apply wf_clearAllConversations.
Qed.

Lemma wf_reachable st : reachable st → wf st.
Proof.
  unfold reachable. intros H.
  eapply (rtc_ind_r (λ s, wf s)); [apply wf_empty_store | | exact H].
  intros y z _ Hstep IH. by eapply wf_step.
Qed.

(** ** The frame handler *)

Lemma ws_onmessage_data w ws now d st :
  sockets st !! w = Some ws →
  ws_onmessage w now (JsonData d) st =
  Normal (update_conversation (ws_conversation ws) (handle_frame now d) st).
Proof. intros Hw. unfold ws_onmessage. by rewrite Hw. Qed.

Lemma handle_frame_chunk_first now d c :
  data_type d = Some "chunk" → isStreaming c = false →
  handle_frame now d c =
  push (assistant_message (data_content d) now) (set_isStreaming true c).
Proof.
  intros Hd Hs. unfold handle_frame. rewrite decide_True by done. by rewrite Hs.
Qed.

Lemma handle_frame_chunk_append now d c ms m :
  data_type d = Some "chunk" → isStreaming c = true →
  messages c = ms ++ [m] → role m = assistant →
  handle_frame now d c =
  set_messages (ms ++ [set_content (content m +:+ data_content d) m]) c.
Proof.
  intros Hd Hs Hm Hr. unfold handle_frame. rewrite decide_True by done.
  rewrite Hs, Hm, last_message_snoc, decide_True by done.
  by rewrite insert_last_snoc.
Qed.

Lemma handle_frame_chunk_new now d c :
  data_type d = Some "chunk" → isStreaming c = true →
  (messages c = [] ∨ ∃ ms m, messages c = ms ++ [m] ∧ role m ≠ assistant) →
  handle_frame now d c = push (assistant_message (data_content d) now) c.
Proof.
  intros Hd Hs Hm. unfold handle_frame. rewrite decide_True by done. rewrite Hs.
  destruct Hm as [Hm|(ms & m & Hm & Hr)]; rewrite Hm.
  - done.
  - by rewrite last_message_snoc, decide_False.
Qed.

Lemma handle_frame_complete now d c :
  data_type d = Some "complete" →
  handle_frame now d c = set_isStreaming false c.
Proof.
  intros Hd. unfold handle_frame.
  rewrite decide_False by (by rewrite Hd). by rewrite decide_True.
Qed.

Lemma handle_frame_error now d c :
  data_type d = Some "error" →
  handle_frame now d c =
  set_isStreaming false (set_error (Some (data_content d)) c).
Proof.
  intros Hd. unfold handle_frame.
  rewrite !decide_False by (by rewrite Hd). by rewrite decide_True.
Qed.

Lemma handle_frame_unknown now d c :
  unknown_type d → handle_frame now d c = c.
Proof.
  intros (H1 & H2 & H3 & H4). unfold handle_frame. by rewrite !decide_False.
Qed.

(** ** Streaming reconciliation *)

(** A connection made with a credential, once its open event has come, is
    an open stream of the research id, and its handlers hold the state
    the research id has. *)
Lemma open_stream_after_connect env k token st :
  wf st →
  truthy token = true →
  ∃ w st1 ws,
    connectWebSocket env k token st = (Pending, Some w, st1) ∧
    open_stream k w ws (ws_onopen w st1) ∧
    ws_conversation ws = (getConversation k st).1 ∧
    conversations (ws_onopen w st1) !! k = Some (ws_conversation ws).
Proof.
  intros Hwf Ht. unfold connectWebSocket.
  pose proof (getConversation_lookup k st Hwf) as [Hk _].
  destruct (getConversation k st) as [l st0]. simpl in Hk |- *.
  set (st1 := match websockets st0 !! k with
              | Some existingWs => ws_close existingWs st0
              | None => st0
              end).
  assert (Hk1 : conversations st1 !! k = Some l).
  { unfold st1. by destruct (websockets st0 !! k). }
  rewrite Ht. simpl. eexists _, _, _. split; [reflexivity |].
  unfold open_stream, ws_onopen. simpl. rewrite lookup_insert_eq. simpl.
  rewrite !lookup_alter_eq, !lookup_insert_eq. simpl.
  split; [split; [reflexivity | split; reflexivity] |]. by split.
Qed.

(** C1, as the code has it. The handlers of a socket write to the
    conversation object they captured when the socket was created.  On a
    research id with an open stream whose handlers hold the state the
    research id has, and which is not streaming, the frames chunk("Hel"),
    chunk("lo"), complete, delivered in that order, are all handled without
    an exception and leave the store as it was except for that
    conversation: its transcript has gained exactly one assistant message,
    with content "Hello" (stamped with the arrival time of the first
    chunk), and [isStreaming] is false.  The [complete] frame changes no
    message. *)
Theorem chunk_chunk_complete k w ws c d1 d2 d3 t1 t2 t3 st :
  open_stream k w ws st →
  conversations st !! k = Some (ws_conversation ws) →
  heap st !! ws_conversation ws = Some c →
  isStreaming c = false →
  is_chunk "Hel" d1 → is_chunk "lo" d2 → is_complete d3 →
  ∃ st1 st2 st3,
    ws_onmessage w t1 (JsonData d1) st = Normal st1 ∧
    ws_onmessage w t2 (JsonData d2) st1 = Normal st2 ∧
    ws_onmessage w t3 (JsonData d3) st2 = Normal st3 ∧
    conversations st3 !! k = Some (ws_conversation ws) ∧
    messages (deref (ws_conversation ws) st3)
    = messages c ++ [assistant_message "Hello" t1] ∧
    isStreaming (deref (ws_conversation ws) st3) = false ∧
    messages (deref (ws_conversation ws) st3)
    = messages (deref (ws_conversation ws) st2) ∧
    st3 = set_heap
            (<[ws_conversation ws :=
                 set_isStreaming false (push (assistant_message "Hello" t1) c)]>
               (heap st)) st.
Proof.
  intros (Hk & Hw & Hopen) Hc Hheap Hidle [Hd1 Ht1] [Hd2 Ht2] Hd3.
  set (l := ws_conversation ws) in *.
  set (c1 := push (assistant_message "Hel" t1) (set_isStreaming true c)).
  set (c2 := set_messages (messages c ++ [assistant_message "Hello" t1]) c1).
  set (c3 := set_isStreaming false c2).
  set (st1 := set_heap (<[l := c1]> (heap st)) st).
  set (st2 := set_heap (<[l := c2]> (heap st)) st).
  set (st3 := set_heap (<[l := c3]> (heap st)) st).
  assert (E1 : ws_onmessage w t1 (JsonData d1) st = Normal st1).
  { rewrite (ws_onmessage_data w ws) by done.
    rewrite (update_conversation_lookup _ _ c) by done.
    by rewrite handle_frame_chunk_first, Ht1. }
  assert (E2 : ws_onmessage w t2 (JsonData d2) st1 = Normal st2).
  { rewrite (ws_onmessage_data w ws) by done.
    rewrite (update_conversation_lookup _ _ c1) by apply lookup_insert_eq.
    rewrite (handle_frame_chunk_append _ _ _ (messages c) (assistant_message "Hel" t1))
      by done.
    rewrite Ht2. unfold st2, st1, set_heap. simpl. by rewrite insert_insert_eq. }
  assert (E3 : ws_onmessage w t3 (JsonData d3) st2 = Normal st3).
  { rewrite (ws_onmessage_data w ws) by done.
    rewrite (update_conversation_lookup _ _ c2) by apply lookup_insert_eq.
    rewrite handle_frame_complete by done.
    unfold st3, st2, set_heap. simpl. by rewrite insert_insert_eq. }
  exists st1, st2, st3. repeat split; try done.
  - by rewrite (deref_lookup l c3) by apply lookup_insert_eq.
  - by rewrite (deref_lookup l c3) by apply lookup_insert_eq.
  - rewrite (deref_lookup l c3) by apply lookup_insert_eq.
    by rewrite (deref_lookup l c2) by apply lookup_insert_eq.
Qed.

Lemma chunk_chunk_complete_witness :
  conversations store_connected !! "r1" = Some 0 ∧
  ∃ st3,
    (st1 ← ws_onmessage 0 "12:00:01" (JsonData (frame "chunk" "Hel")) store_connected;
     st2 ← ws_onmessage 0 "12:00:02" (JsonData (frame "chunk" "lo")) st1;
     ws_onmessage 0 "12:00:03" (JsonData (frame "complete" EmptyString)) st2) = Normal st3 ∧
    messages (deref 0 st3) = [assistant_message "Hello" "12:00:01"] ∧
    isStreaming (deref 0 st3) = false.
Proof.
  split; [reflexivity |].
  destruct (chunk_chunk_complete "r1" 0
              {| url := "ws://localhost:8000/api/v1/chat/ws/r1"; readyState := OPEN;
                 ws_conversation := 0; ws_researchId := "r1";
                 ws_promise := Resolved; ws_sent := [] |}
              (set_isConnected true new_ChatState)
              (frame "chunk" "Hel") (frame "chunk" "lo") (frame "complete" EmptyString)
              "12:00:01" "12:00:02" "12:00:03" store_connected)
    as (st1 & st2 & st3 & E1 & E2 & E3 & _ & Hm & Hs & _);
    try reflexivity; try (split; reflexivity).
  { split; [reflexivity |]. split; reflexivity. }
  exists st3. rewrite E1. simpl. rewrite E2. simpl. rewrite E3. done.
Defined.

(** C1, as the claim has it, fails.  [clearAllConversations] closes the
    registered sockets only; a socket that is still connecting then opens
    and registers itself, with handlers that hold the old conversation
    object.  The research id has an open stream and an idle state, yet the
    three frames leave its transcript empty: the message went to the old
    object. *)
Lemma chunk_chunk_complete_counterexample :
  reachable store_orphan ∧
  (∃ ws, open_stream "r1" 0 ws store_orphan) ∧
  conversations store_orphan !! "r1" = Some 1 ∧
  deref 1 store_orphan = new_ChatState ∧
  ∃ st3,
    deliver 0 [("12:00:01", JsonData (frame "chunk" "Hel"));
               ("12:00:02", JsonData (frame "chunk" "lo"));
               ("12:00:03", JsonData (frame "complete" EmptyString))]
      store_orphan = Normal st3 ∧
    conversations st3 !! "r1" = Some 1 ∧
    messages (deref 1 st3) = [] ∧
    messages (deref 0 st3) = [assistant_message "Hello" "12:00:01"].
Proof.
  split; [| split; [| split; [| split]]].
  - eapply rtc_l; [apply (step_connectWebSocket None "r1" (Some "token")) |].
    eapply rtc_l; [apply step_clearAllConversations |].
    eapply rtc_l; [apply (step_ws_onopen 0) |].
    eapply rtc_l; [apply (step_getConversation "r1") |].
    apply rtc_refl.
  - eexists. split; [reflexivity |]. split; reflexivity.
  - reflexivity.
  - reflexivity.
  - eexists. split; [reflexivity |]. split; [reflexivity |]. split; reflexivity.
Qed.

(** What a chunk does to a conversation that is already streaming, by the
    last message of its transcript. *)
Lemma chunk_while_streaming_store w ws c d now st :
  sockets st !! w = Some ws →
  heap st !! ws_conversation ws = Some c →
  ws_onmessage w now (JsonData d) st =
  Normal (set_heap (<[ws_conversation ws := handle_frame now d c]> (heap st)) st).
Proof.
  intros Hw Hc. rewrite (ws_onmessage_data w ws) by done.
  by rewrite (update_conversation_lookup _ _ c).
Qed.

(** C5, as the code has it. A chunk that arrives while [isStreaming] is true
    is appended to the content of the last message, and no message is
    created, when that last message is an assistant message; when the
    transcript is empty or ends with a message of another role, the chunk
    starts a new assistant message instead.  [isStreaming] stays true. *)
Theorem chunk_while_streaming w ws c d now st :
  sockets st !! w = Some ws →
  heap st !! ws_conversation ws = Some c →
  isStreaming c = true →
  data_type d = Some "chunk" →
  ∃ st',
    ws_onmessage w now (JsonData d) st = Normal st' ∧
    isStreaming (deref (ws_conversation ws) st') = true ∧
    (∀ ms m, messages c = ms ++ [m] → role m = assistant →
       messages (deref (ws_conversation ws) st') =
       ms ++ [set_content (content m +:+ data_content d) m]) ∧
    ((messages c = [] ∨ ∃ ms m, messages c = ms ++ [m] ∧ role m ≠ assistant) →
       messages (deref (ws_conversation ws) st') =
       messages c ++ [assistant_message (data_content d) now]).
Proof.
  intros Hw Hc Hs Hd. eexists. split; [by apply chunk_while_streaming_store |].
  rewrite (deref_lookup _ (handle_frame now d c)) by apply lookup_insert_eq.
  split; [| split].
  - destruct (last_message (messages c)) as [m|] eqn:E.
    + apply last_message_Some in E as [ms E].
      destruct (decide (role m = assistant)) as [Hr|Hr].
      * by rewrite (handle_frame_chunk_append now d c ms m).
      * rewrite handle_frame_chunk_new by eauto 6. done.
    + apply last_message_None in E. by rewrite handle_frame_chunk_new by eauto.
  - intros ms m Hm Hr. by rewrite (handle_frame_chunk_append now d c ms m).
  - intros Hm. by rewrite handle_frame_chunk_new.
Qed.

Lemma chunk_while_streaming_witness :
  ∃ st',
    ws_onmessage 0 "12:00:02" (JsonData (frame "chunk" "lo")) store_streaming
    = Normal st' ∧
    messages (deref 0 st') = [assistant_message "Hello" "12:00:01"].
Proof.
  destruct (chunk_while_streaming 0
              {| url := "ws://localhost:8000/api/v1/chat/ws/r1"; readyState := OPEN;
                 ws_conversation := 0; ws_researchId := "r1";
                 ws_promise := Resolved; ws_sent := [] |}
              (push (assistant_message "Hel" "12:00:01")
                 (set_isStreaming true (set_isConnected true new_ChatState)))
              (frame "chunk" "lo") "12:00:02" store_streaming)
    as (st' & E & _ & Happend & _); try reflexivity.
  exists st'. split; [exact E |].
  apply (Happend [] (assistant_message "Hel" "12:00:01")); reflexivity.
Defined.

(** C5, as the claim has it, fails: after a first chunk and a streaming send
    of the user, the conversation is streaming and its last message is the
    user's; the next chunk leaves that message alone and adds a message. *)
Lemma chunk_while_streaming_counterexample :
  isStreaming (deref 0 store_interrupted) = true ∧
  messages (deref 0 store_interrupted) =
    [assistant_message "A" "12:00:01"; user_message "q" "12:00:02"] ∧
  ∃ st',
    ws_onmessage 0 "12:00:03" (JsonData (frame "chunk" "B")) store_interrupted
    = Normal st' ∧
    messages (deref 0 st') =
      [assistant_message "A" "12:00:01"; user_message "q" "12:00:02";
       assistant_message "B" "12:00:03"].
Proof. split; [reflexivity |]. split; [reflexivity |]. eexists. split; reflexivity. Qed.

(** C6, as the code has it. On a research id with an open stream whose
    handlers hold the state the research id has, and which is not
    streaming, the frames chunk("A") and error("boom"), in that order, are
    handled without an exception: the chunk adds the partial assistant
    message "A" to the transcript, and the error frame leaves the
    transcript exactly as the chunk left it, sets [error] to "boom" and
    [isStreaming] to false. *)
Theorem chunk_then_error k w ws c d1 d2 t1 t2 st :
  open_stream k w ws st →
  conversations st !! k = Some (ws_conversation ws) →
  heap st !! ws_conversation ws = Some c →
  isStreaming c = false →
  is_chunk "A" d1 → is_error "boom" d2 →
  ∃ st1 st2,
    ws_onmessage w t1 (JsonData d1) st = Normal st1 ∧
    ws_onmessage w t2 (JsonData d2) st1 = Normal st2 ∧
    conversations st2 !! k = Some (ws_conversation ws) ∧
    messages (deref (ws_conversation ws) st1)
    = messages c ++ [assistant_message "A" t1] ∧
    messages (deref (ws_conversation ws) st2)
    = messages (deref (ws_conversation ws) st1) ∧
    error (deref (ws_conversation ws) st2) = Some "boom" ∧
    isStreaming (deref (ws_conversation ws) st2) = false.
Proof.
  intros (Hk & Hw & Hopen) Hc Hheap Hidle [Hd1 Ht1] [Hd2 Ht2].
  set (l := ws_conversation ws) in *.
  set (c1 := handle_frame t1 d1 c).
  set (st1 := set_heap (<[l := c1]> (heap st)) st).
  set (c2 := set_isStreaming false (set_error (Some "boom") c1)).
  set (st2 := set_heap (<[l := c2]> (heap st)) st).
  assert (E1 : ws_onmessage w t1 (JsonData d1) st = Normal st1)
    by by apply chunk_while_streaming_store.
  assert (E2 : ws_onmessage w t2 (JsonData d2) st1 = Normal st2).
  { rewrite (chunk_while_streaming_store w ws c1) by (done || apply lookup_insert_eq).
    rewrite handle_frame_error, Ht2 by done.
    unfold st2, st1, set_heap. simpl. by rewrite insert_insert_eq. }
  exists st1, st2.
  rewrite (deref_lookup l c2 st2), (deref_lookup l c1 st1) by apply lookup_insert_eq.
  repeat split; try done.
  unfold c1. by rewrite handle_frame_chunk_first, Ht1.
Qed.

Lemma chunk_then_error_witness :
  conversations store_connected !! "r1" = Some 0 ∧
  ∃ st2,
    (st1 ← ws_onmessage 0 "12:00:01" (JsonData (frame "chunk" "A")) store_connected;
     ws_onmessage 0 "12:00:02" (JsonData (frame "error" "boom")) st1) = Normal st2 ∧
    messages (deref 0 st2) = [assistant_message "A" "12:00:01"] ∧
    error (deref 0 st2) = Some "boom" ∧
    isStreaming (deref 0 st2) = false.
Proof.
  split; [reflexivity |].
  destruct (chunk_then_error "r1" 0
              {| url := "ws://localhost:8000/api/v1/chat/ws/r1"; readyState := OPEN;
                 ws_conversation := 0; ws_researchId := "r1";
                 ws_promise := Resolved; ws_sent := [] |}
              (set_isConnected true new_ChatState)
              (frame "chunk" "A") (frame "error" "boom")
              "12:00:01" "12:00:02" store_connected)
    as (st1 & st2 & E1 & E2 & _ & Hm1 & Hm2 & He & Hs);
    try reflexivity; try (split; reflexivity).
  { split; [reflexivity |]. split; reflexivity. }
  exists st2. rewrite E1. simpl. rewrite E2. simpl in Hm1, Hm2, He, Hs.
  split; [done |]. split; [by rewrite Hm2, Hm1 |]. split; done.
Defined.

(** C6, as the claim has it, fails in two ways.  On the research id whose
    open socket holds an old conversation object, the two frames leave the
    transcript of the research id empty and its [error] null.  And on a
    conversation that is already streaming, the chunk extends the message
    in progress, so that no message with content "A" is in the transcript. *)
Lemma chunk_then_error_counterexample :
  ((∃ ws, open_stream "r1" 0 ws store_orphan) ∧
   conversations store_orphan !! "r1" = Some 1 ∧
   ∃ st2,
     deliver 0 [("12:00:01", JsonData (frame "chunk" "A"));
                ("12:00:02", JsonData (frame "error" "boom"))]
       store_orphan = Normal st2 ∧
     conversations st2 !! "r1" = Some 1 ∧
     messages (deref 1 st2) = [] ∧
     error (deref 1 st2) = None) ∧
  ((∃ ws, open_stream "r1" 0 ws store_streaming) ∧
   conversations store_streaming !! "r1" = Some 0 ∧
   isStreaming (deref 0 store_streaming) = true ∧
   ∃ st2,
     deliver 0 [("12:00:02", JsonData (frame "chunk" "A"));
                ("12:00:03", JsonData (frame "error" "boom"))]
       store_streaming = Normal st2 ∧
     messages (deref 0 st2) = [assistant_message "HelA" "12:00:01"]).
Proof.
  split.
  - split; [eexists; split; [reflexivity | split; reflexivity] |].
    split; [reflexivity |].
    eexists. split; [reflexivity |]. split; [reflexivity |]. split; reflexivity.
  - split; [eexists; split; [reflexivity | split; reflexivity] |].
    split; [reflexivity |]. split; [reflexivity |].
    eexists. split; reflexivity.
Qed.

(** C8. A frame whose type is none of chunk, complete, error and tool_use,
    and a frame that does not parse to an object, never make the handler
    throw; they change no conversation (so no error is surfaced), no socket,
    no registry entry and not the active id.  A frame of unknown type leaves
    the whole store as it was; a frame that does not parse only adds a line
    to the console. *)
Theorem malformed_frames_ignored w now event_data st :
  (event_data = NotJson ∨ event_data = JsonNull ∨
   ∃ d, event_data = JsonData d ∧ unknown_type d) →
  ∃ st',
    ws_onmessage w now event_data st = Normal st' ∧
    conversations st' = conversations st ∧
    heap st' = heap st ∧
    websockets st' = websockets st ∧
    sockets st' = sockets st ∧
    activeResearchId st' = activeResearchId st ∧
    (∀ d, event_data = JsonData d → st' = st).
Proof.
  intros H. unfold ws_onmessage.
  destruct (sockets st !! w) as [ws|]; [| by exists st].
  destruct H as [->|[->|(d & -> & Hd)]]; simpl.
  - eexists. by repeat split.
  - eexists. by repeat split.
  - exists st. rewrite update_conversation_id; [done |].
    intros c _. by apply handle_frame_unknown.
Qed.

Lemma malformed_frames_ignored_witness :
  ws_onmessage 0 "12:00:01" (JsonData (frame "ping" "x")) store_connected
  = Normal store_connected ∧
  ∃ st', ws_onmessage 0 "12:00:01" NotJson store_connected = Normal st' ∧
         heap st' = heap store_connected.
Proof.
  split.
  - destruct (malformed_frames_ignored 0 "12:00:01" (JsonData (frame "ping" "x"))
                store_connected) as (st' & E & _ & _ & _ & _ & _ & Hst).
    { right. right. exists (frame "ping" "x"). split; [reflexivity |].
      repeat split; discriminate. }
    rewrite E. f_equal. by apply (Hst (frame "ping" "x")).
  - destruct (malformed_frames_ignored 0 "12:00:01" NotJson store_connected)
      as (st' & E & _ & Hh & _); [by left |].
    by exists st'.
Defined.

(** ** Sending *)

Lemma wf_store_connected : wf store_connected.
Proof. apply wf_ws_onopen, wf_connectWebSocket, wf_empty_store. Qed.

(** C7. When the registry holds an open socket for the research id,
    [sendWebSocketMessage] returns normally, appends to the transcript one
    user message with the text and the time of the call, and hands the
    socket one frame whose [message] is the text and whose [history] is the
    transcript as it stood before the call. *)
Theorem sendWebSocketMessage_open k w ws text now st :
  wf st →
  websockets st !! k = Some w →
  sockets st !! w = Some ws →
  readyState ws = OPEN →
  let l := (getConversation k st).1 in
  let before := messages (deref l (getConversation k st).2) in
  ∃ st',
    sendWebSocketMessage k text now st = (Normal tt, st') ∧
    messages (deref l st') = before ++ [user_message text now] ∧
    sockets st' !! w =
      Some (set_ws_sent
              (ws_sent ws ++ [{| frame_message := text; frame_history := before |}]) ws).
Proof.
  intros Hwf Hk Hw Hopen l before. subst l before.
  unfold sendWebSocketMessage.
  pose proof (getConversation_lookup k st Hwf) as [_ Hl].
  pose proof (getConversation_sockets k st) as [Hws Hso].
  destruct (getConversation k st) as [l st0]. simpl in *.
  rewrite Hws, Hk. unfold not_open. rewrite Hso, Hw, Hopen. simpl.
  eexists. split; [reflexivity |].
  rewrite deref_update_conversation by done. simpl.
  split.
  - unfold deref. simpl. rewrite lookup_alter_eq.
    destruct Hl as [c Hl]. by rewrite Hl.
  - rewrite slice_init, lookup_alter_eq, Hso, Hw. done.
Qed.

Lemma sendWebSocketMessage_open_witness :
  ∃ st',
    sendWebSocketMessage "r1" "hi" "12:00:05" store_streaming = (Normal tt, st') ∧
    messages (deref 0 st') =
      [assistant_message "Hel" "12:00:01"; user_message "hi" "12:00:05"] ∧
    ws_sent <$> sockets st' !! 0 =
      Some [{| frame_message := "hi";
               frame_history := [assistant_message "Hel" "12:00:01"] |}].
Proof.
  destruct (sendWebSocketMessage_open "r1" 0
              {| url := "ws://localhost:8000/api/v1/chat/ws/r1"; readyState := OPEN;
                 ws_conversation := 0; ws_researchId := "r1";
                 ws_promise := Resolved; ws_sent := [] |}
              "hi" "12:00:05" store_streaming)
    as (st' & E & Hm & Hs); try reflexivity.
  { apply (wf_ws_onmessage 0 "12:00:01" (JsonData (frame "chunk" "Hel")) store_connected);
      [reflexivity | apply wf_store_connected]. }
  exists st'. split; [exact E |]. split; [exact Hm |]. by rewrite Hs.
Defined.

(** The store [sendMessage] leaves at its [await], when a token is present. *)
Lemma sendMessage_start_token k text now token st :
  truthy token = true →
  sendMessage_start k text now token st =
  (Normal (getConversation k st).1,
   update_conversation (getConversation k st).1 (set_error None)
     (update_conversation (getConversation k st).1 (push (user_message text now))
        (getConversation k st).2)).
Proof.
  intros Ht. unfold sendMessage_start. destruct (getConversation k st) as [l st0].
  by rewrite Ht.
Qed.

Lemma sendMessage_start_no_token k text now token st :
  truthy token = false →
  sendMessage_start k text now token st =
  (Throw (Error "Not authenticated"),
   sendMessage_catch (getConversation k st).1 (Error "Not authenticated")
     (update_conversation (getConversation k st).1 (set_error None)
        (update_conversation (getConversation k st).1 (push (user_message text now))
           (getConversation k st).2))).
Proof.
  intros Ht. unfold sendMessage_start. destruct (getConversation k st) as [l st0].
  by rewrite Ht.
Qed.

(** C2. When [sendMessage] succeeds, a token was present and the request
    was answered; the transcript of the research id is the one before the
    call followed by exactly two messages, the user's (the text sent, the
    time of the call) and then the assistant's (content, timestamp and tool
    uses as the server gave them); every other conversation object is as it
    was. *)
Theorem sendMessage_success k text now token response st st' :
  wf st →
  sendMessage k text now token response st = (Normal tt, st') →
  let l := (getConversation k st).1 in
  let st0 := (getConversation k st).2 in
  ∃ data,
    response = Normal data ∧
    truthy token = true ∧
    conversations st' !! k = Some l ∧
    messages (deref l st') =
      messages (deref l st0) ++
      [user_message text now;
       {| role := assistant; content := response_content data;
          timestamp := response_timestamp data;
          tool_uses := response_tool_uses data |}] ∧
    (∀ l', l' ≠ l → heap st' !! l' = heap st0 !! l').
Proof.
  intros Hwf H l st0. subst l st0. unfold sendMessage in H.
  pose proof (getConversation_lookup k st Hwf) as [Hk Hl].
  destruct (truthy token) eqn:Ht.
  2: { rewrite sendMessage_start_no_token in H by done. discriminate. }
  rewrite sendMessage_start_token in H by done.
  destruct response as [data|err]; simpl in H; [| discriminate].
  injection H as <-. exists data. repeat split; try done.
  - rewrite !deref_update_conversation.
    + simpl. by rewrite <- app_assoc.
    + done.
    + simpl. by rewrite lookup_alter_is_Some.
    + simpl. by rewrite !lookup_alter_is_Some.
  - intros l' Hne. simpl. by rewrite !lookup_alter_ne.
Qed.

Lemma sendMessage_success_witness :
  ∃ st',
    sendMessage "r1" "hi" "12:00:00" (Some "token")
      (Normal {| response_content := "hello"; response_timestamp := "12:00:01";
                 response_tool_uses := None |}) store_connected
    = (Normal tt, st') ∧
    messages (deref 0 st') =
      [user_message "hi" "12:00:00"; assistant_message "hello" "12:00:01"].
Proof.
  eexists. split; [reflexivity |].
  destruct (sendMessage_success "r1" "hi" "12:00:00" (Some "token")
              (Normal {| response_content := "hello"; response_timestamp := "12:00:01";
                         response_tool_uses := None |})
              store_connected _ wf_store_connected eq_refl)
    as (data & E & _ & _ & Hm & _).
  injection E as <-. exact Hm.
Defined.

(** C10. With no credential, [sendMessage] rejects with the error
    "Not authenticated", but only after it has appended the user message:
    the transcript is the one before the call followed by that message, and
    the [error] field holds the fallback text "Failed to send message". *)
Theorem sendMessage_no_token k text now token response st :
  wf st →
  truthy token = false →
  let l := (getConversation k st).1 in
  let st0 := (getConversation k st).2 in
  ∃ st',
    sendMessage k text now token response st = (Throw (Error "Not authenticated"), st') ∧
    messages (deref l st') = messages (deref l st0) ++ [user_message text now] ∧
    length (messages (deref l st')) = S (length (messages (deref l st0))) ∧
    error (deref l st') = Some "Failed to send message".
Proof.
  intros Hwf Ht l st0. subst l st0. unfold sendMessage.
  pose proof (getConversation_lookup k st Hwf) as [Hk Hl].
  rewrite sendMessage_start_no_token by done.
  eexists. split; [reflexivity |].
  unfold sendMessage_catch.
  rewrite !deref_update_conversation; simpl; rewrite ?lookup_alter_is_Some; try done.
  repeat split. rewrite length_app. simpl. lia.
Qed.

Lemma sendMessage_no_token_witness :
  ∃ st',
    sendMessage "r1" "hi" "12:00:00" None (Throw (AxiosError None)) store_connected
    = (Throw (Error "Not authenticated"), st') ∧
    messages (deref 0 st') = [user_message "hi" "12:00:00"] ∧
    error (deref 0 st') = Some "Failed to send message".
Proof.
  destruct (sendMessage_no_token "r1" "hi" "12:00:00" None (Throw (AxiosError None))
              store_connected wf_store_connected eq_refl)
    as (st' & E & Hm & _ & He).
  exists st'. split; [exact E |]. split; [exact Hm | exact He].
Defined.

(** ** Opening a stream without a credential *)

Lemma dom_sockets_ws_close w st : dom (sockets (ws_close w st)) = dom (sockets st).
Proof. unfold ws_close. simpl. apply dom_alter_L. Qed.

(** The rejected call, as an equation: the store it leaves is the one after
    [getConversation] and the close of the registered socket. *)
Lemma connectWebSocket_rejected env k token st :
  truthy token = false →
  connectWebSocket env k token st
  = (Rejected (Error "Not authenticated"), None,
     match websockets st !! k with
     | Some existingWs => ws_close existingWs (getConversation k st).2
     | None => (getConversation k st).2
     end).
Proof.
  intros Ht. unfold connectWebSocket.
  pose proof (getConversation_sockets k st) as [Hws _].
  destruct (getConversation k st) as [l st0]. simpl in *.
  by rewrite Ht, Hws.
Qed.

(** C3, as the code has it. With no credential, [connectWebSocket] rejects
    at once with the error "Not authenticated": it creates no socket and
    leaves the registry as it was.  The check comes after the close of the
    existing connection, though: the store it leaves is the one after
    [getConversation] with [close()] called on the socket registered for
    the research id, so that an open socket is left closing; no other
    socket is touched. *)
Theorem connectWebSocket_no_token env k token st :
  truthy token = false →
  let st0 := (getConversation k st).2 in
  ∃ st',
    connectWebSocket env k token st = (Rejected (Error "Not authenticated"), None, st') ∧
    st' = match websockets st !! k with
          | Some existingWs => ws_close existingWs st0
          | None => st0
          end ∧
    dom (sockets st') = dom (sockets st) ∧
    websockets st' = websockets st ∧
    (∀ w, websockets st !! k ≠ Some w → sockets st' !! w = sockets st !! w) ∧
    (∀ w ws, websockets st !! k = Some w → sockets st !! w = Some ws →
       readyState ws = OPEN →
       sockets st' !! w = Some (set_readyState CLOSING ws)).
Proof.
  intros Ht st0. subst st0. rewrite connectWebSocket_rejected by done.
  pose proof (getConversation_sockets k st) as [Hws Hso].
  eexists. split; [reflexivity |]. split; [done |].
  destruct (websockets st !! k) as [w0|] eqn:Hk.
  - repeat split.
    + by rewrite dom_sockets_ws_close, Hso.
    + done.
    + intros w Hne. simpl. rewrite lookup_alter_ne, Hso; [done | congruence].
    + intros w ws [= ->] Hw Hopen. simpl.
      rewrite lookup_alter_eq, Hso, Hw. simpl. by rewrite Hopen.
  - repeat split; try done.
    + by rewrite Hso.
    + intros w _. by rewrite Hso.
Qed.

Lemma connectWebSocket_no_token_witness :
  ∃ st',
    connectWebSocket None "r1" None store_connected
    = (Rejected (Error "Not authenticated"), None, st') ∧
    dom (sockets st') = dom (sockets store_connected) ∧
    websockets st' = websockets store_connected.
Proof.
  destruct (connectWebSocket_no_token None "r1" None store_connected eq_refl)
    as (st' & E & _ & Hd & Hw & _).
  exists st'. split; [exact E |]. split; [exact Hd | exact Hw].
Defined.

(** C3, as the claim has it, fails: the rejected call has closed the
    connection that was open for the research id. *)
Lemma connectWebSocket_no_token_counterexample :
  readyState <$> sockets store_connected !! 0 = Some OPEN ∧
  (connectWebSocket None "r1" None store_connected).1
  = (Rejected (Error "Not authenticated"), None) ∧
  readyState <$> sockets (connectWebSocket None "r1" None store_connected).2 !! 0
  = Some CLOSING.
Proof. split; [reflexivity |]. split; reflexivity. Qed.

(** ** Which errors reach the [error] field *)

(** C4, as the code has it. A failure of [sendMessage] (no credential, or a
    failed request) is recorded on the [error] field of the conversation, as
    the detail the server gave or else the text "Failed to send message";
    so are the error event of a socket ("WebSocket connection error") and an
    error frame (its content).  A streaming send with no open connection
    only throws, and [connectWebSocket] without a credential only rejects:
    neither writes the [error] field or any other field of a conversation. *)
Theorem errors_recorded st :
  wf st →
  (∀ k text now token response err st',
     sendMessage k text now token response st = (Throw err, st') →
     error (deref (getConversation k st).1 st')
     = Some (or_else (err_detail err) "Failed to send message")) ∧
  (∀ w ws, sockets st !! w = Some ws →
     error (deref (ws_conversation ws) (ws_onerror w st))
     = Some "WebSocket connection error") ∧
  (∀ w ws now d, sockets st !! w = Some ws → data_type d = Some "error" →
     ∃ st', ws_onmessage w now (JsonData d) st = Normal st' ∧
            error (deref (ws_conversation ws) st') = Some (data_content d)) ∧
  (∀ k text now, not_open (websockets st !! k) st = true →
     sendWebSocketMessage k text now st
     = (Throw (Error "WebSocket not connected"), (getConversation k st).2)) ∧
  (∀ env k token, truthy token = false →
     (connectWebSocket env k token st).1.1 = Rejected (Error "Not authenticated") ∧
     heap (connectWebSocket env k token st).2 = heap (getConversation k st).2).
Proof.
  intros Hwf. repeat split.
  - intros k text now token response err st' H. unfold sendMessage in H.
    pose proof (getConversation_lookup k st Hwf) as [Hk Hl].
    destruct (truthy token) eqn:Ht.
    + rewrite sendMessage_start_token in H by done.
      destruct response as [data|err']; simpl in H; [discriminate |].
      injection H as -> <-. unfold sendMessage_catch.
      rewrite deref_update_conversation; [done |].
      simpl. by rewrite !lookup_alter_is_Some.
    + rewrite sendMessage_start_no_token in H by done.
      injection H as <- <-. unfold sendMessage_catch.
      rewrite deref_update_conversation; [done |].
      simpl. by rewrite !lookup_alter_is_Some.
  - intros w ws Hw. unfold ws_onerror. rewrite Hw.
    destruct (wf_sockets st Hwf w ws Hw) as [c Hc].
    unfold deref. simpl. by rewrite !lookup_alter_eq, Hc.
  - intros w ws now d Hw Hd.
    destruct (wf_sockets st Hwf w ws Hw) as [c Hc].
    eexists. split; [by apply chunk_while_streaming_store |].
    rewrite (deref_lookup _ (handle_frame now d c)) by apply lookup_insert_eq.
    by rewrite handle_frame_error.
  - intros k text now Hno. unfold sendWebSocketMessage.
    pose proof (getConversation_sockets k st) as [Hws Hso].
    destruct (getConversation k st) as [l st0]. simpl in *.
    unfold not_open in *. by rewrite Hws, Hso, Hno.
  - by rewrite connectWebSocket_rejected.
  - rewrite connectWebSocket_rejected by done.
    simpl. by destruct (websockets st !! k).
Qed.

Lemma errors_recorded_witness :
  error (deref 0 (ws_onerror 0 store_connected)) = Some "WebSocket connection error" ∧
  sendWebSocketMessage "r2" "hi" "12:00:00" store_connected
  = (Throw (Error "WebSocket not connected"), (getConversation "r2" store_connected).2).
Proof.
  destruct (errors_recorded store_connected wf_store_connected)
    as (_ & Honerror & _ & Hsend & _).
  split.
  - apply (Honerror 0
             {| url := "ws://localhost:8000/api/v1/chat/ws/r1"; readyState := OPEN;
                ws_conversation := 0; ws_researchId := "r1";
                ws_promise := Resolved; ws_sent := [] |}).
    reflexivity.
  - apply Hsend. reflexivity.
Defined.

(** C4, as the claim has it, fails: a streaming send on a research id with
    no connection throws and leaves the [error] field null; so does a
    [connectWebSocket] without a credential. *)
Lemma errors_recorded_counterexample :
  (sendWebSocketMessage "r1" "hi" "12:00:00" empty_store).1
  = Throw (Error "WebSocket not connected") ∧
  error (deref 0 (sendWebSocketMessage "r1" "hi" "12:00:00" empty_store).2) = None ∧
  conversations (sendWebSocketMessage "r1" "hi" "12:00:00" empty_store).2 !! "r1"
  = Some 0 ∧
  (connectWebSocket None "r1" None empty_store).1.1
  = Rejected (Error "Not authenticated") ∧
  error (deref 0 (connectWebSocket None "r1" None empty_store).2) = None.
Proof. repeat split; reflexivity. Qed.

(** ** One conversation state per research id *)

Lemma getConversation_same_or_new k st1 st :
  conversations st1 = conversations st → heap st1 = heap st →
  same_or_new st (getConversation k st1).2.
Proof.
  intros Hc Hh. unfold getConversation, same_or_new.
  destruct (conversations st1 !! k) eqn:E; simpl.
  - by left.
  - right. left. exists k. by rewrite <- Hc, <- Hh.
Qed.

Lemma conversations_sendMessage_start k text now token st :
  conversations (sendMessage_start k text now token st).2
  = conversations (getConversation k st).2.
Proof.
  unfold sendMessage_start. destruct (getConversation k st) as [l st0].
  by destruct (negb (truthy token)).
Qed.

Lemma conversations_connectWebSocket env k token st :
  conversations (connectWebSocket env k token st).2
  = conversations (getConversation k st).2.
Proof.
  unfold connectWebSocket. destruct (getConversation k st) as [l st0].
  destruct (negb (truthy token)); simpl; by destruct (websockets st0 !! k).
Qed.

Lemma conversations_sendWebSocketMessage k text now st :
  conversations (sendWebSocketMessage k text now st).2
  = conversations (getConversation k st).2.
Proof.
  unfold sendWebSocketMessage. destruct (getConversation k st) as [l st0].
  destruct (not_open _ _); simpl; [done |]. by destruct (websockets st0 !! k).
Qed.

Lemma conversations_clearConversation k st :
  conversations (clearConversation k st) = conversations (getConversation k st).2.
Proof. unfold clearConversation. by destruct (getConversation k st) as [l st0]. Qed.

Lemma step_same_or_new st st' : step st st' → same_or_new st st'.
Proof.
  destruct 1.
  - by apply getConversation_same_or_new.
  - unfold currentConversation.
    destruct (negb (truthy (activeResearchId st))); [by left |].
    destruct (activeResearchId st) as [k|]; [| by left].
    pose proof (getConversation_same_or_new k st st eq_refl eq_refl).
    by destruct (getConversation k st).
  - unfold setActiveResearch, same_or_new. simpl.
    destruct (conversations st !! researchId) eqn:E; simpl; [by left |].
    right. left. by exists researchId.
  - unfold same_or_new. rewrite conversations_sendMessage_start.
    by apply getConversation_same_or_new.
  - left. by destruct response.
  - unfold same_or_new. rewrite conversations_connectWebSocket.
    by apply getConversation_same_or_new.
  - left. unfold ws_onopen. by destruct (sockets st !! w).
  - left. unfold ws_onmessage in H.
    destruct (sockets st !! w); [| by inversion H].
    by destruct event_data; simpl in H; inversion H.
  - left. unfold ws_onerror. by destruct (sockets st !! w).
  - left. unfold ws_onclose. by destruct (sockets st !! w).
  - unfold same_or_new. rewrite conversations_sendWebSocketMessage.
    by apply getConversation_same_or_new.
  - unfold disconnectWebSocket.
    set (st1 := match websockets st !! researchId with
                | Some ws => set_websockets (delete researchId (websockets st)) (ws_close ws st)
                | None => st
                end).
    assert (conversations st1 = conversations st ∧ heap st1 = heap st) as [Hc Hh].
    { unfold st1. by destruct (websockets st !! researchId). }
    pose proof (getConversation_same_or_new researchId st1 st Hc Hh).
    by destruct (getConversation researchId st1).
  - unfold same_or_new. rewrite conversations_clearConversation.
    by apply getConversation_same_or_new.
  - by right; right.
Qed.

(** C9. Two calls of [getConversation] with the same research id return the
    same reference, and the second call changes nothing in the store.  In
    every store the application can reach, two research ids never share a
    state; and no call or event ever gives a research id that has a state
    another one: the state it has stays, or the map is cleared, and a state
    appears for a research id only when it had none, as a newly created
    object. *)
Theorem getConversation_one_state_per_key :
  (∀ k st,
     getConversation k (getConversation k st).2
     = ((getConversation k st).1, (getConversation k st).2) ∧
     conversations (getConversation k st).2 !! k = Some (getConversation k st).1) ∧
  (∀ st k1 k2 l, reachable st →
     conversations st !! k1 = Some l → conversations st !! k2 = Some l → k1 = k2) ∧
  (∀ st st' k l l', step st st' →
     conversations st !! k = Some l → conversations st' !! k = Some l' → l' = l) ∧
  (∀ st st' k l, step st st' →
     conversations st !! k = None → conversations st' !! k = Some l →
     heap st !! l = None).
Proof.
  repeat split.
  - unfold getConversation. destruct (conversations st !! k) eqn:E; simpl.
    + by rewrite E.
    + by rewrite lookup_insert_eq.
  - unfold getConversation. destruct (conversations st !! k) eqn:E; simpl.
    + done.
    + by rewrite lookup_insert_eq.
  - intros st k1 k2 l Hr. apply wf_injective. by apply wf_reachable.
  - intros st st' k l l' Hstep Hk Hk'.
    destruct (step_same_or_new st st' Hstep) as [E|[(k0 & Hk0 & E)|E]];
      rewrite E in Hk'.
    + congruence.
    + rewrite lookup_insert_ne in Hk' by congruence. congruence.
    + by rewrite lookup_empty in Hk'.
  - intros st st' k l Hstep Hk Hk'.
    destruct (step_same_or_new st st' Hstep) as [E|[(k0 & Hk0 & E)|E]];
      rewrite E in Hk'.
    + congruence.
    + apply lookup_insert_Some in Hk' as [[_ <-]|[_ ?]]; [| congruence].
      apply not_elem_of_dom, is_fresh.
    + by rewrite lookup_empty in Hk'.
Qed.

Lemma getConversation_one_state_per_key_witness :
  getConversation "r1" (getConversation "r1" empty_store).2
  = getConversation "r1" empty_store ∧
  (getConversation "r1" (clearConversation "r1" store_connected)).1 = 0.
Proof.
  destruct getConversation_one_state_per_key as (Hsame & _ & Hkeep & _).
  split.
  - apply (Hsame "r1" empty_store).
  - apply (Hkeep store_connected (clearConversation "r1" store_connected) "r1" 0 _
             (step_clearConversation "r1" store_connected)); reflexivity.
Defined.

(** ** Further properties of the frame handler *)

Lemma string_app_assoc (a b c : string) : (a +:+ b) +:+ c = a +:+ (b +:+ c).
Proof.
  induction a as [|x a IH]; [done |].
  change (String x ((a +:+ b) +:+ c) = String x (a +:+ (b +:+ c))).
  by rewrite IH.
Qed.

(** X1. A [tool_use] frame that arrives when the last message of the
    transcript is an assistant message adds the announced tool (name and
    arguments, no result) at the end of that message's [tool_uses], creating
    the list when the message had none; nothing else in the store changes. *)
Theorem tool_use_attached w ws c ms m d now st :
  sockets st !! w = Some ws →
  heap st !! ws_conversation ws = Some c →
  data_type d = Some "tool_use" →
  messages c = ms ++ [m] →
  role m = assistant →
  ws_onmessage w now (JsonData d) st =
  Normal
    (set_heap
       (<[ws_conversation ws :=
            set_messages
              (ms ++ [set_tool_uses
                        (Some (default [] (tool_uses m) ++ [announced_tool d])) m]) c]>
          (heap st)) st).
Proof.
  intros Hw Hc Hd Hm Hr. rewrite (chunk_while_streaming_store w ws c) by done.
  do 3 f_equal. unfold handle_frame.
  rewrite !decide_False by (by rewrite Hd). rewrite decide_True by done.
  rewrite Hm, last_message_snoc, decide_True by done.
  by rewrite insert_last_snoc.
Qed.

Lemma tool_use_attached_witness :
  ∃ st',
    ws_onmessage 0 "12:00:02"
      (JsonData {| data_type := Some "tool_use"; data_content := EmptyString;
                   data_tool := "search_web"; data_arguments := [("q", JStr "tea")] |})
      store_streaming = Normal st' ∧
    messages (deref 0 st') =
      [{| role := assistant; content := "Hel"; timestamp := "12:00:01";
          tool_uses := Some [{| tool := "search_web"; arguments := [("q", JStr "tea")];
                                result := None; tool_error := None |}] |}].
Proof.
  eexists. split.
  - apply (tool_use_attached 0
             {| url := "ws://localhost:8000/api/v1/chat/ws/r1"; readyState := OPEN;
                ws_conversation := 0; ws_researchId := "r1";
                ws_promise := Resolved; ws_sent := [] |}
             (push (assistant_message "Hel" "12:00:01")
                (set_isStreaming true (set_isConnected true new_ChatState)))
             [] (assistant_message "Hel" "12:00:01")); reflexivity.
  - reflexivity.
Defined.

(** X2. A [tool_use] frame that arrives when the transcript is empty or
    ends with a message that is not the assistant's is dropped: the handler
    returns normally and the store is exactly as before. *)
Theorem tool_use_dropped w ws c d now st :
  sockets st !! w = Some ws →
  heap st !! ws_conversation ws = Some c →
  data_type d = Some "tool_use" →
  (messages c = [] ∨ ∃ ms m, messages c = ms ++ [m] ∧ role m ≠ assistant) →
  ws_onmessage w now (JsonData d) st = Normal st.
Proof.
  intros Hw Hc Hd Hm. rewrite (ws_onmessage_data w ws) by done. f_equal.
  apply update_conversation_id. intros c' Hc'.
  assert (c' = c) as -> by congruence.
  unfold handle_frame.
  rewrite !decide_False by (by rewrite Hd). rewrite decide_True by done.
  destruct Hm as [Hm|(ms & m & Hm & Hr)]; rewrite Hm.
  - done.
  - by rewrite last_message_snoc, decide_False.
Qed.

Lemma tool_use_dropped_witness :
  ws_onmessage 0 "12:00:03"
    (JsonData {| data_type := Some "tool_use"; data_content := EmptyString;
                 data_tool := "search_web"; data_arguments := [] |})
    store_interrupted = Normal store_interrupted.
Proof.
  apply (tool_use_dropped 0
           {| url := "ws://localhost:8000/api/v1/chat/ws/r1"; readyState := OPEN;
              ws_conversation := 0; ws_researchId := "r1"; ws_promise := Resolved;
              ws_sent := [{| frame_message := "q";
                             frame_history := [assistant_message "A" "12:00:01"] |}] |}
           (set_messages [assistant_message "A" "12:00:01"; user_message "q" "12:00:02"]
              (set_isStreaming true (set_isConnected true new_ChatState))));
    try reflexivity.
  right. exists [assistant_message "A" "12:00:01"], (user_message "q" "12:00:02").
  split; [reflexivity | discriminate].
Defined.

(** What one parsed frame does to the messages a conversation already has. *)
Lemma handle_frame_keeps now d c :
  (length (messages c) ≤ length (messages (handle_frame now d c)))%nat ∧
  (length (messages (handle_frame now d c)) ≤ S (length (messages c)))%nat ∧
  (∀ i m, messages c !! i = Some m →
     S i < length (messages c) ∨ role m ≠ assistant →
     messages (handle_frame now d c) !! i = Some m) ∧
  (∀ i m, messages c !! i = Some m →
     ∃ m', messages (handle_frame now d c) !! i = Some m' ∧
           role m' = role m ∧ timestamp m' = timestamp m).
Proof.
  assert (Hpush : ∀ x c0, messages c0 = messages c →
    (length (messages c) ≤ length (messages (push x c0)))%nat ∧
    (length (messages (push x c0)) ≤ S (length (messages c)))%nat ∧
    (∀ i m, messages c !! i = Some m →
       S i < length (messages c) ∨ role m ≠ assistant →
       messages (push x c0) !! i = Some m) ∧
    (∀ i m, messages c !! i = Some m →
       ∃ m', messages (push x c0) !! i = Some m' ∧
             role m' = role m ∧ timestamp m' = timestamp m)).
  { intros x c0 E. simpl. rewrite E, length_app. simpl.
    split; [lia |]. split; [lia |]. split.
    - intros i m Hi _. by rewrite lookup_app_l by (by eapply lookup_lt_Some).
    - intros i m Hi. exists m. by rewrite lookup_app_l by (by eapply lookup_lt_Some). }
  assert (Hsame : ∀ c0, messages c0 = messages c →
    (length (messages c) ≤ length (messages c0))%nat ∧
    (length (messages c0) ≤ S (length (messages c)))%nat ∧
    (∀ i m, messages c !! i = Some m →
       S i < length (messages c) ∨ role m ≠ assistant →
       messages c0 !! i = Some m) ∧
    (∀ i m, messages c !! i = Some m →
       ∃ m', messages c0 !! i = Some m' ∧
             role m' = role m ∧ timestamp m' = timestamp m)).
  { intros c0 ->. split; [lia |]. split; [lia |]. split; [done | eauto]. }
  assert (Hedit : ∀ ms m0 m0', messages c = ms ++ [m0] → role m0 = assistant →
    role m0' = role m0 → timestamp m0' = timestamp m0 →
    (length (messages c) ≤ length (ms ++ [m0']))%nat ∧
    (length (ms ++ [m0']) ≤ S (length (messages c)))%nat ∧
    (∀ i m, messages c !! i = Some m →
       S i < length (messages c) ∨ role m ≠ assistant →
       (ms ++ [m0']) !! i = Some m) ∧
    (∀ i m, messages c !! i = Some m →
       ∃ m', (ms ++ [m0']) !! i = Some m' ∧
             role m' = role m ∧ timestamp m' = timestamp m)).
  { intros ms m0 m0' E Hr Hr' Ht'. rewrite E, !length_app. simpl.
    split; [lia |]. split; [lia |]. split.
    - intros i m Hi Hcond.
      destruct (decide (i < length ms)) as [Hlt|Hge].
      + rewrite lookup_app_l in Hi |- * by done. done.
      + rewrite lookup_app_r in Hi by lia.
        destruct (i - length ms) as [|n] eqn:En; simpl in Hi; [| done].
        injection Hi as <-. destruct Hcond as [Hcond|Hcond]; [lia | done].
    - intros i m Hi.
      destruct (decide (i < length ms)) as [Hlt|Hge].
      + rewrite lookup_app_l in Hi |- * by done. eauto.
      + rewrite lookup_app_r in Hi |- * by lia.
        destruct (i - length ms) as [|n] eqn:En; simpl in Hi |- *; [| done].
        injection Hi as <-. eauto. }
  unfold handle_frame. repeat case_decide.
  - destruct (isStreaming c); [| by apply Hpush].
    destruct (last_message (messages c)) as [m0|] eqn:E; [| by apply Hpush].
    case_decide; [| by apply Hpush].
    apply last_message_Some in E as [ms E]. simpl.
    rewrite E, insert_last_snoc. rewrite <- E. by eapply Hedit.
  - by apply Hsame.
  - by apply Hsame.
  - destruct (last_message (messages c)) as [m0|] eqn:E; [| by apply Hsame].
    case_decide; [| by apply Hsame].
    apply last_message_Some in E as [ms E]. simpl.
    rewrite E, insert_last_snoc. rewrite <- E. by eapply Hedit.
  - by apply Hsame.
Qed.

(** X3. Whatever a socket receives, no conversation loses a message: the
    handler leaves every conversation object in place, its transcript keeps
    its length or grows by one, every message keeps its position, role and
    timestamp, and a message is left exactly as it was unless it is the last
    one and an assistant message; in particular a user message is never
    altered by a frame. *)
Theorem frames_keep_history w now event_data st st' l c :
  ws_onmessage w now event_data st = Normal st' →
  heap st !! l = Some c →
  ∃ c',
    heap st' !! l = Some c' ∧
    (length (messages c) ≤ length (messages c'))%nat ∧
    (length (messages c') ≤ S (length (messages c)))%nat ∧
    (∀ i m, messages c !! i = Some m →
       S i < length (messages c) ∨ role m ≠ assistant →
       messages c' !! i = Some m) ∧
    (∀ i m, messages c !! i = Some m →
       ∃ m', messages c' !! i = Some m' ∧
             role m' = role m ∧ timestamp m' = timestamp m).
Proof.
  intros H Hl. unfold ws_onmessage in H.
  assert (Hid : ∃ c', Some c = Some c' ∧
    (length (messages c) ≤ length (messages c'))%nat ∧
    (length (messages c') ≤ S (length (messages c)))%nat ∧
    (∀ i m, messages c !! i = Some m →
       S i < length (messages c) ∨ role m ≠ assistant →
       messages c' !! i = Some m) ∧
    (∀ i m, messages c !! i = Some m →
       ∃ m', messages c' !! i = Some m' ∧
             role m' = role m ∧ timestamp m' = timestamp m)).
  { exists c. split; [done |]. split; [lia |]. split; [lia |]. split; [done | eauto]. }
  destruct (sockets st !! w) as [ws|]; [| injection H as <-; by rewrite Hl].
  destruct event_data as [| |d]; simpl in H; injection H as <-; simpl;
    try (by rewrite Hl).
  rewrite lookup_alter.
  case_decide; [subst l | by rewrite Hl].
  rewrite Hl. simpl. eexists. split; [done |]. apply handle_frame_keeps.
Qed.

Lemma frames_keep_history_witness :
  ∃ c',
    heap (returned (ws_onmessage 0 "12:00:03" (JsonData (frame "chunk" "B"))
                      store_interrupted)) !! 0 = Some c' ∧
    messages c' !! 1 = Some (user_message "q" "12:00:02").
Proof.
  destruct (frames_keep_history 0 "12:00:03" (JsonData (frame "chunk" "B"))
              store_interrupted
              (returned (ws_onmessage 0 "12:00:03" (JsonData (frame "chunk" "B"))
                           store_interrupted))
              0
              (set_messages [assistant_message "A" "12:00:01"; user_message "q" "12:00:02"]
                 (set_isStreaming true (set_isConnected true new_ChatState)))
              eq_refl eq_refl)
    as (c' & Hc' & _ & _ & Hkeep & _).
  exists c'. split; [exact Hc' |].
  apply Hkeep; [reflexivity |]. right. discriminate.
Defined.

(** Chunks that arrive while the conversation streams and its transcript
    ends with an assistant message all go into that message. *)
Lemma deliver_chunks_streaming w ws (ds : list (string * FrameData)) :
  Forall (λ d, data_type d.2 = Some "chunk") ds →
  ∀ st c ms m,
    sockets st !! w = Some ws →
    heap st !! ws_conversation ws = Some c →
    isStreaming c = true →
    messages c = ms ++ [m] →
    role m = assistant →
    deliver w (map (λ d, (d.1, JsonData d.2)) ds) st =
    Normal
      (set_heap
         (<[ws_conversation ws :=
              set_messages (ms ++ [set_content (content m +:+ chunks_text ds) m]) c]>
            (heap st)) st).
Proof.
  induction 1 as [|[t d] ds Hd Hds IH]; intros st c ms m Hw Hc Hs Hm Hr.
  - simpl. f_equal.
    assert (content m +:+ EmptyString = content m) as ->.
    { induction (content m) as [|x s IHs]; [done |].
      change (String x (s +:+ EmptyString) = String x s). by rewrite IHs. }
    assert (set_content (content m) m = m) as -> by by destruct m.
    rewrite <- Hm.
    assert (set_messages (messages c) c = c) as -> by by destruct c.
    rewrite insert_id by done. apply eq_sym, set_heap_same.
  - simpl in Hd |- *.
    rewrite (chunk_while_streaming_store w ws c) by done. simpl.
    rewrite (handle_frame_chunk_append t d c ms m) by done.
    rewrite (IH _ (set_messages
                     (ms ++ [set_content (content m +:+ data_content d) m]) c)
               ms (set_content (content m +:+ data_content d) m));
      try done; [| apply lookup_insert_eq].
    simpl. rewrite string_app_assoc. unfold set_heap. simpl.
    by rewrite insert_insert_eq.
Qed.

(** X4. On an idle conversation, a run of chunk frames (one or more)
    followed by a complete frame is handled without an exception and adds
    exactly one assistant message: its content is the texts of the chunks
    joined in the order of arrival, its timestamp the arrival time of the
    first chunk; [isStreaming] ends false and the rest of the store is
    untouched. *)
Theorem chunks_then_complete w ws c t0 d0 (ds : list (string * FrameData)) t d st :
  sockets st !! w = Some ws →
  heap st !! ws_conversation ws = Some c →
  isStreaming c = false →
  Forall (λ d, data_type d.2 = Some "chunk") ((t0, d0) :: ds) →
  data_type d = Some "complete" →
  deliver w (map (λ d, (d.1, JsonData d.2)) ((t0, d0) :: ds) ++ [(t, JsonData d)]) st =
  Normal
    (set_heap
       (<[ws_conversation ws :=
            set_isStreaming false
              (push (assistant_message (chunks_text ((t0, d0) :: ds)) t0) c)]>
          (heap st)) st).
Proof.
  intros Hw Hc Hidle Hds Hd. apply Forall_cons in Hds as [Hd0 Hds]. simpl in Hd0.
  set (c1 := push (assistant_message (data_content d0) t0) (set_isStreaming true c)).
  set (c2 := set_messages
               (messages c ++ [assistant_message (data_content d0 +:+ chunks_text ds) t0])
               c1).
  assert (Hsplit : ∀ fs gs s,
    deliver w (fs ++ gs) s = (s' ← deliver w fs s; deliver w gs s')).
  { induction fs as [|[t' e] fs IH]; intros gs s; simpl; [done |].
    destruct (ws_onmessage w t' e s); simpl; [apply IH | done]. }
  change (map (λ d, (d.1, JsonData d.2)) ((t0, d0) :: ds))
    with ((t0, JsonData d0) :: map (λ d, (d.1, JsonData d.2)) ds).
  rewrite Hsplit. simpl.
  rewrite (chunk_while_streaming_store w ws c) by done. simpl.
  rewrite handle_frame_chunk_first by done. fold c1.
  rewrite (deliver_chunks_streaming w ws ds Hds _ c1 (messages c)
             (assistant_message (data_content d0) t0));
    try done; [| apply lookup_insert_eq].
  simpl. fold c2.
  rewrite (chunk_while_streaming_store w ws c2) by (done || apply lookup_insert_eq).
  rewrite handle_frame_complete by done.
  unfold set_heap. simpl. by rewrite !insert_insert_eq.
Qed.

Lemma chunks_then_complete_witness :
  ∃ st',
    deliver 0 [("12:00:01", JsonData (frame "chunk" "Mar"));
               ("12:00:02", JsonData (frame "chunk" "ket "));
               ("12:00:03", JsonData (frame "chunk" "size"));
               ("12:00:04", JsonData (frame "complete" EmptyString))]
      store_connected = Normal st' ∧
    messages (deref 0 st') = [assistant_message "Market size" "12:00:01"] ∧
    isStreaming (deref 0 st') = false.
Proof.
  eexists. split.
  - apply (chunks_then_complete 0
             {| url := "ws://localhost:8000/api/v1/chat/ws/r1"; readyState := OPEN;
                ws_conversation := 0; ws_researchId := "r1";
                ws_promise := Resolved; ws_sent := [] |}
             (set_isConnected true new_ChatState)
             "12:00:01" (frame "chunk" "Mar")
             [("12:00:02", frame "chunk" "ket "); ("12:00:03", frame "chunk" "size")]
             "12:00:04" (frame "complete" EmptyString) store_connected);
      try reflexivity.
    repeat constructor.
  - split; reflexivity.
Defined.

(** ** Connecting, reconnecting and closing *)

(** The store after [getConversation] and the close of the registered socket. *)
Lemma connectWebSocket_token env k token st :
  truthy token = true →
  let st1 := match websockets st !! k with
             | Some existingWs => ws_close existingWs (getConversation k st).2
             | None => (getConversation k st).2
             end in
  let w1 := fresh (dom (sockets st)) in
  connectWebSocket env k token st =
  (Pending, Some w1,
   set_sockets
     (<[w1 := {| url := replace "http" "ws" (API_BASE_URL env) +:+ "/api/v1/chat/ws/" +:+ k;
                 readyState := CONNECTING;
                 ws_conversation := (getConversation k st).1;
                 ws_researchId := k; ws_promise := Pending; ws_sent := [] |}]>
        (sockets st1)) st1).
Proof.
  intros Ht. simpl. unfold connectWebSocket.
  pose proof (getConversation_sockets k st) as [Hws Hso].
  destruct (getConversation k st) as [l st0]. simpl in *.
  rewrite Ht, Hws. simpl.
  destruct (websockets st !! k) as [w0|]; simpl.
  - by rewrite dom_alter_L, Hso.
  - by rewrite Hso.
Qed.

Lemma getConversation_existing k l st :
  conversations st !! k = Some l → getConversation k st = (l, st).
Proof. intros H. unfold getConversation. by rewrite H. Qed.

(** A streaming send throws when the registered socket is not open. *)
Lemma sendWebSocketMessage_throws k l text now st :
  conversations st !! k = Some l →
  not_open (websockets st !! k) st = true →
  (sendWebSocketMessage k text now st).1 = Throw (Error "WebSocket not connected").
Proof.
  intros Hk Hno. unfold sendWebSocketMessage.
  rewrite (getConversation_existing k l) by done. by rewrite Hno.
Qed.

(** X5. Reconnecting: when a research id already has an open socket,
    [connectWebSocket] with a credential calls [close()] on it and creates
    another socket, still connecting; until the open event the registry
    keeps the old, closing socket, so a streaming send throws.  After the
    open event of the new socket the registry holds the new socket, open,
    the promise is resolved, and the conversation is connected with its
    error cleared. *)
Theorem reconnect_replaces_socket env k token w0 ws0 st :
  wf st →
  truthy token = true →
  websockets st !! k = Some w0 →
  sockets st !! w0 = Some ws0 →
  readyState ws0 = OPEN →
  ∃ w1 st1,
    connectWebSocket env k token st = (Pending, Some w1, st1) ∧
    w1 ≠ w0 ∧
    sockets st1 !! w0 = Some (set_readyState CLOSING ws0) ∧
    websockets st1 !! k = Some w0 ∧
    (∀ text now,
       (sendWebSocketMessage k text now st1).1 = Throw (Error "WebSocket not connected")) ∧
    websockets (ws_onopen w1 st1) !! k = Some w1 ∧
    sockets (ws_onopen w1 st1) !! w0 = Some (set_readyState CLOSING ws0) ∧
    (∃ ws1, sockets (ws_onopen w1 st1) !! w1 = Some ws1 ∧
            readyState ws1 = OPEN ∧ ws_promise ws1 = Resolved ∧
            ws_conversation ws1 = (getConversation k st).1) ∧
    isConnected (deref (getConversation k st).1 (ws_onopen w1 st1)) = true ∧
    error (deref (getConversation k st).1 (ws_onopen w1 st1)) = None.
Proof.
  intros Hwf Ht Hk Hw0 Hopen.
  pose proof (connectWebSocket_token env k token st Ht) as E. simpl in E.
  rewrite Hk in E.
  pose proof (getConversation_sockets k st) as [Hws Hso].
  pose proof (getConversation_lookup k st Hwf) as [Hkl [c Hc]].
  assert (Hne : fresh (dom (sockets st)) ≠ w0).
  { intros Heq. apply (is_fresh (dom (sockets st))). rewrite Heq.
    apply elem_of_dom. eauto. }
  eexists _, _. split; [exact E |]. split; [done |].
  assert (Hold : alter (λ ws, match readyState ws with
                              | CLOSING | CLOSED => ws
                              | _ => set_readyState CLOSING ws
                              end) w0 (sockets (getConversation k st).2) !! w0
                 = Some (set_readyState CLOSING ws0)).
  { rewrite lookup_alter_eq, Hso, Hw0. simpl. by rewrite Hopen. }
  split; [| split; [| split; [| split; [| split; [| split; [| split]]]]]].
  - simpl. by rewrite lookup_insert_ne.
  - simpl. by rewrite Hws.
  - intros text now.
    apply (sendWebSocketMessage_throws k (getConversation k st).1); [done |].
    simpl. rewrite Hws, Hk. simpl. by rewrite lookup_insert_ne, Hold by done.
  - unfold ws_onopen. simpl. rewrite lookup_insert_eq. simpl.
    by rewrite lookup_insert_eq.
  - unfold ws_onopen. simpl. rewrite lookup_insert_eq. simpl.
    by rewrite !lookup_alter_ne, lookup_insert_ne by done.
  - unfold ws_onopen. simpl. rewrite lookup_insert_eq. simpl.
    eexists. rewrite !lookup_alter_eq, lookup_insert_eq. simpl.
    split; [reflexivity |]. by repeat split.
  - unfold ws_onopen, deref. simpl. rewrite lookup_insert_eq. simpl.
    by rewrite !lookup_alter_eq, Hc.
  - unfold ws_onopen, deref. simpl. rewrite lookup_insert_eq. simpl.
    by rewrite !lookup_alter_eq, Hc.
Qed.

Lemma reconnect_replaces_socket_witness :
  ∃ st1,
    connectWebSocket None "r1" (Some "token") store_connected = (Pending, Some 1, st1) ∧
    readyState <$> sockets st1 !! 0 = Some CLOSING ∧
    websockets (ws_onopen 1 st1) !! "r1" = Some 1.
Proof.
  destruct (reconnect_replaces_socket None "r1" (Some "token") 0
              {| url := "ws://localhost:8000/api/v1/chat/ws/r1"; readyState := OPEN;
                 ws_conversation := 0; ws_researchId := "r1";
                 ws_promise := Resolved; ws_sent := [] |}
              store_connected wf_store_connected eq_refl eq_refl eq_refl eq_refl)
    as (w1 & st1 & E & _ & Hold & _ & _ & Hreg & _).
  assert (w1 = 1) as -> by (by injection E).
  exists st1. split; [exact E |]. split; [by rewrite Hold | exact Hreg].
Defined.











(** X8. An error event (the platform has closed the socket by then)
    records "WebSocket connection error" on the conversation the socket's
    handlers hold and sets [isConnected] to false; it leaves the
    transcript and [isStreaming] alone, rejects the promise if it is still
    pending, and does not touch the registry: a socket that was registered
    stays registered, closed, and a streaming send for its research id
    throws.  The close event that follows removes the registry entry of the
    socket's research id and sets [isStreaming] to false. *)
Theorem error_event_effect w ws c st :
  sockets st !! w = Some ws →
  heap st !! ws_conversation ws = Some c →
  deref (ws_conversation ws) (ws_onerror w st)
  = set_isConnected false (set_error (Some "WebSocket connection error") c) ∧
  websockets (ws_onerror w st) = websockets st ∧
  sockets (ws_onerror w st) !! w
  = Some (settle (Rejected ErrorEvent) (set_readyState CLOSED ws)) ∧
  (∀ k text now, websockets st !! k = Some w →
     (sendWebSocketMessage k text now (ws_onerror w st)).1
     = Throw (Error "WebSocket not connected")) ∧
  websockets (ws_onclose w (ws_onerror w st)) !! ws_researchId ws = None ∧
  deref (ws_conversation ws) (ws_onclose w (ws_onerror w st))
  = set_isStreaming false
      (set_isConnected false (set_error (Some "WebSocket connection error") c)).
Proof.
  intros Hw Hc.
  assert (Hso : sockets (ws_onerror w st) !! w
                = Some (settle (Rejected ErrorEvent) (set_readyState CLOSED ws))).
  { unfold ws_onerror. rewrite Hw. simpl. by rewrite !lookup_alter_eq, Hw. }
  assert (Hreg : websockets (ws_onerror w st) = websockets st).
  { unfold ws_onerror. by rewrite Hw. }
  assert (Hheap : heap (ws_onerror w st) !! ws_conversation ws
                  = Some (set_isConnected false
                            (set_error (Some "WebSocket connection error") c))).
  { unfold ws_onerror. rewrite Hw. simpl. by rewrite !lookup_alter_eq, Hc. }
  assert (Hid : ws_researchId (settle (Rejected ErrorEvent) (set_readyState CLOSED ws))
                = ws_researchId ws ∧
                ws_conversation (settle (Rejected ErrorEvent) (set_readyState CLOSED ws))
                = ws_conversation ws ∧
                readyState (settle (Rejected ErrorEvent) (set_readyState CLOSED ws))
                = CLOSED).
  { unfold settle. simpl. by destruct (ws_promise ws). }
  destruct Hid as (Hid1 & Hid2 & Hid3).
  split; [by apply deref_lookup |]. split; [done |]. split; [done |].
  split; [| split].
  - intros k text now Hk. unfold sendWebSocketMessage.
    pose proof (getConversation_sockets k (ws_onerror w st)) as [Hws' Hso'].
    destruct (getConversation k (ws_onerror w st)) as [l st0]. simpl in *.
    rewrite Hws', Hreg, Hk. unfold not_open. by rewrite Hso', Hso, Hid3.
  - unfold ws_onclose. rewrite Hso. simpl. rewrite Hid1. apply lookup_delete_eq.
  - unfold ws_onclose, deref. rewrite Hso. simpl. rewrite Hid2.
    by rewrite !lookup_alter_eq, Hheap.
Qed.

Lemma error_event_effect_witness :
  isConnected (deref 0 (ws_onerror 0 store_connected)) = false ∧
  websockets (ws_onerror 0 store_connected) !! "r1" = Some 0 ∧
  (sendWebSocketMessage "r1" "hi" "12:00:09" (ws_onerror 0 store_connected)).1
  = Throw (Error "WebSocket not connected").
Proof.
  destruct (error_event_effect 0
              {| url := "ws://localhost:8000/api/v1/chat/ws/r1"; readyState := OPEN;
                 ws_conversation := 0; ws_researchId := "r1";
                 ws_promise := Resolved; ws_sent := [] |}
              (set_isConnected true new_ChatState) store_connected eq_refl eq_refl)
    as (Hd & Hreg & _ & Hsend & _).
  simpl in Hd. split; [by rewrite Hd |]. split; [by rewrite Hreg |].
  apply Hsend. reflexivity.
Defined.

(** X9. A stream that closes in mid-answer: the close event leaves the
    transcript and the [error] field as they are, partial message included,
    sets [isConnected] and [isStreaming] to false and unregisters the
    research id; the next chunk that reaches this conversation then starts
    a new assistant message instead of extending the partial one. *)
Theorem close_mid_stream w ws c st :
  sockets st !! w = Some ws →
  heap st !! ws_conversation ws = Some c →
  deref (ws_conversation ws) (ws_onclose w st)
  = set_isStreaming false (set_isConnected false c) ∧
  websockets (ws_onclose w st) !! ws_researchId ws = None ∧
  (∀ w' ws' now d,
     sockets (ws_onclose w st) !! w' = Some ws' →
     ws_conversation ws' = ws_conversation ws →
     data_type d = Some "chunk" →
     ∃ st', ws_onmessage w' now (JsonData d) (ws_onclose w st) = Normal st' ∧
            messages (deref (ws_conversation ws) st')
            = messages c ++ [assistant_message (data_content d) now]).
Proof.
  intros Hw Hc.
  assert (Hheap : heap (ws_onclose w st) !! ws_conversation ws
                  = Some (set_isStreaming false (set_isConnected false c))).
  { unfold ws_onclose. rewrite Hw. simpl. by rewrite !lookup_alter_eq, Hc. }
  split; [by apply deref_lookup |]. split.
  - unfold ws_onclose. rewrite Hw. simpl. apply lookup_delete_eq.
  - intros w' ws' now d Hw' Hconv Hd. eexists. split.
    + apply (chunk_while_streaming_store w' ws'); [done |]. by rewrite Hconv.
    + rewrite Hconv. rewrite (deref_lookup _ _ _ (lookup_insert_eq _ _ _)).
      by rewrite handle_frame_chunk_first.
Qed.

Lemma close_mid_stream_witness :
  messages (deref 0 (ws_onclose 0 store_streaming))
  = [assistant_message "Hel" "12:00:01"] ∧
  isStreaming (deref 0 (ws_onclose 0 store_streaming)) = false ∧
  websockets (ws_onclose 0 store_streaming) !! "r1" = None.
Proof.
  destruct (close_mid_stream 0
              {| url := "ws://localhost:8000/api/v1/chat/ws/r1"; readyState := OPEN;
                 ws_conversation := 0; ws_researchId := "r1";
                 ws_promise := Resolved; ws_sent := [] |}
              (push (assistant_message "Hel" "12:00:01")
                 (set_isStreaming true (set_isConnected true new_ChatState)))
              store_streaming eq_refl eq_refl)
    as (Hd & Hreg & _).
  simpl in Hd. rewrite Hd. split; [reflexivity |]. split; [reflexivity | exact Hreg].
Defined.

(** ** Disconnecting and clearing *)

Lemma getConversation_registered k st :
  conversations (getConversation k st).2 !! k = Some (getConversation k st).1.
Proof.
  unfold getConversation. destruct (conversations st !! k) eqn:E; simpl; [done |].
  by rewrite lookup_insert_eq.
Qed.

(** [getConversation] only reads the map and the conversation objects. *)
Lemma getConversation_congr k st1 st :
  conversations st1 = conversations st → heap st1 = heap st →
  (getConversation k st1).1 = (getConversation k st).1 ∧
  conversations (getConversation k st1).2 = conversations (getConversation k st).2 ∧
  heap (getConversation k st1).2 = heap (getConversation k st).2 ∧
  websockets (getConversation k st1).2 = websockets st1 ∧
  sockets (getConversation k st1).2 = sockets st1.
Proof.
  intros Hc Hh. unfold getConversation. rewrite Hc.
  destruct (conversations st !! k); simpl; by rewrite ?Hc, ?Hh.
Qed.

(** X10. [disconnectWebSocket] leaves the research id without a registry
    entry and its conversation neither connected nor streaming; the socket
    that was registered has had [close()] called on it; the transcript and
    the [error] field are as they were, and the other research ids keep
    their registry entries. *)
Theorem disconnectWebSocket_effect k st :
  wf st →
  websockets (disconnectWebSocket k st) !! k = None ∧
  (∀ k', k' ≠ k → websockets (disconnectWebSocket k st) !! k' = websockets st !! k') ∧
  (∀ w ws, websockets st !! k = Some w → sockets st !! w = Some ws →
     ∃ ws', sockets (disconnectWebSocket k st) !! w = Some ws' ∧ closing_or_closed ws') ∧
  conversations (disconnectWebSocket k st) !! k = Some (getConversation k st).1 ∧
  deref (getConversation k st).1 (disconnectWebSocket k st)
  = set_isStreaming false
      (set_isConnected false (deref (getConversation k st).1 (getConversation k st).2)).
Proof.
  intros Hwf. unfold disconnectWebSocket.
  set (st1 := match websockets st !! k with
              | Some ws => set_websockets (delete k (websockets st)) (ws_close ws st)
              | None => st
              end).
  assert (Hc1 : conversations st1 = conversations st ∧ heap st1 = heap st).
  { unfold st1. by destruct (websockets st !! k). }
  destruct Hc1 as [Hc1 Hh1].
  destruct (getConversation_congr k st1 st Hc1 Hh1) as (Hl & Hconv & Hheap & Hws & Hso).
  pose proof (getConversation_registered k st1) as Hreg.
  pose proof (getConversation_lookup k st Hwf) as [_ [c Hc]].
  destruct (getConversation k st1) as [l st2]. simpl in *. subst l.
  assert (Hws1 : websockets st1 !! k = None ∧
                 ∀ k', k' ≠ k → websockets st1 !! k' = websockets st !! k').
  { unfold st1. destruct (websockets st !! k) eqn:E; simpl.
    - split; [apply lookup_delete_eq |]. intros k' Hne. by apply lookup_delete_ne.
    - split; [done |]. done. }
  destruct Hws1 as [Hk1 Hother].
  repeat split.
  - by rewrite Hws.
  - intros k' Hne. rewrite Hws. by apply Hother.
  - intros w ws Hk Hw. rewrite Hso. unfold st1. rewrite Hk. simpl.
    rewrite lookup_alter_eq, Hw. simpl. eexists. split; [reflexivity |].
    unfold closing_or_closed. destruct (readyState ws) eqn:E; simpl; auto.
  - done.
  - unfold deref. simpl. by rewrite !lookup_alter_eq, Hheap, Hc.
Qed.

Lemma disconnectWebSocket_effect_witness :
  websockets (disconnectWebSocket "r1" store_streaming) !! "r1" = None ∧
  isStreaming (deref 0 (disconnectWebSocket "r1" store_streaming)) = false ∧
  messages (deref 0 (disconnectWebSocket "r1" store_streaming))
  = [assistant_message "Hel" "12:00:01"].
Proof.
  destruct (disconnectWebSocket_effect "r1" store_streaming) as (Hreg & _ & _ & _ & Hd).
  { apply (wf_ws_onmessage 0 "12:00:01" (JsonData (frame "chunk" "Hel")) store_connected);
      [reflexivity | apply wf_store_connected]. }
  split; [exact Hreg |].
  change 0 with (getConversation "r1" store_streaming).1. rewrite Hd.
  split; reflexivity.
Defined.

(** X11. [disconnectWebSocket] is idempotent: a second call for the same
    research id leaves the store exactly as the first one left it. *)
Theorem disconnectWebSocket_idempotent k st :
  disconnectWebSocket k (disconnectWebSocket k st) = disconnectWebSocket k st.
Proof.
  assert (H : ∃ l st2,
    disconnectWebSocket k st
    = update_conversation l (set_isStreaming false)
        (update_conversation l (set_isConnected false) st2) ∧
    conversations st2 !! k = Some l ∧ websockets st2 !! k = None).
  { unfold disconnectWebSocket.
    set (st1 := match websockets st !! k with
                | Some ws => set_websockets (delete k (websockets st)) (ws_close ws st)
                | None => st
                end).
    assert (Hk1 : websockets st1 !! k = None).
    { unfold st1. destruct (websockets st !! k) eqn:E; simpl; [| done].
      apply lookup_delete_eq. }
    pose proof (getConversation_registered k st1) as Hreg.
    pose proof (getConversation_sockets k st1) as [Hws _].
    destruct (getConversation k st1) as [l st2]. simpl in *.
    exists l, st2. split; [done |]. split; [done | by rewrite Hws]. }
  destruct H as (l & st2 & E & Hconv & Hreg). rewrite E.
  set (X := update_conversation l (set_isStreaming false)
              (update_conversation l (set_isConnected false) st2)).
  assert (HX1 : websockets X !! k = None) by done.
  assert (HX2 : conversations X !! k = Some l) by done.
  assert (HX3 : ∀ c, heap X !! l = Some c →
                     set_isConnected false c = c ∧ set_isStreaming false c = c).
  { intros c. unfold X, update_conversation. simpl. rewrite !lookup_alter_eq.
    destruct (heap st2 !! l) as [c0|]; simpl; [| done]. by intros [= <-]. }
  clearbody X. unfold disconnectWebSocket. rewrite HX1.
  rewrite (getConversation_existing k l) by done.
  rewrite (update_conversation_id l (set_isConnected false) X)
    by (intros c Hc; by apply HX3).
  apply update_conversation_id. intros c Hc. by apply HX3.
Qed.

(** X12. [clearConversation] empties the transcript and the [error] field
    of the research id and nothing else: [isConnected] and [isStreaming]
    keep their values, and the registry and the sockets are untouched, so a
    stream in progress goes on: the next chunk for this conversation starts
    a new assistant message, the only one of the emptied transcript. *)
Theorem clearConversation_effect k st :
  wf st →
  deref (getConversation k st).1 (clearConversation k st)
  = set_error None
      (set_messages [] (deref (getConversation k st).1 (getConversation k st).2)) ∧
  conversations (clearConversation k st) !! k = Some (getConversation k st).1 ∧
  websockets (clearConversation k st) = websockets st ∧
  sockets (clearConversation k st) = sockets st ∧
  (∀ l', l' ≠ (getConversation k st).1 →
     heap (clearConversation k st) !! l' = heap (getConversation k st).2 !! l') ∧
  (∀ w ws now d,
     sockets st !! w = Some ws →
     ws_conversation ws = (getConversation k st).1 →
     data_type d = Some "chunk" →
     ∃ st', ws_onmessage w now (JsonData d) (clearConversation k st) = Normal st' ∧
            messages (deref (getConversation k st).1 st')
            = [assistant_message (data_content d) now]).
Proof.
  intros Hwf.
  pose proof (getConversation_lookup k st Hwf) as [Hk [c Hc]].
  pose proof (getConversation_sockets k st) as [Hws Hso].
  assert (Hcc : clearConversation k st
                = update_conversation (getConversation k st).1 (set_error None)
                    (update_conversation (getConversation k st).1 (set_messages [])
                       (getConversation k st).2)).
  { unfold clearConversation. by destruct (getConversation k st). }
  assert (Hheap : heap (clearConversation k st) !! (getConversation k st).1
                  = Some (set_error None (set_messages [] c))).
  { rewrite Hcc. simpl. by rewrite !lookup_alter_eq, Hc. }
  split; [| split; [| split; [| split; [| split]]]].
  - by rewrite (deref_lookup _ _ _ Hheap), (deref_lookup _ _ _ Hc).
  - by rewrite Hcc.
  - by rewrite Hcc.
  - by rewrite Hcc.
  - intros l' Hne. rewrite Hcc. simpl. by rewrite !lookup_alter_ne.
  - intros w ws now d Hw Hconv Hd. eexists. split.
    + apply (chunk_while_streaming_store w ws).
      * by rewrite Hcc; simpl; rewrite Hso.
      * rewrite Hconv. exact Hheap.
    + rewrite Hconv. rewrite (deref_lookup _ _ _ (lookup_insert_eq _ _ _)).
      destruct (isStreaming c) eqn:Hs.
      * by rewrite handle_frame_chunk_new by (done || by left).
      * by rewrite handle_frame_chunk_first.
Qed.

Lemma clearConversation_effect_witness :
  messages (deref 0 (clearConversation "r1" store_streaming)) = [] ∧
  isStreaming (deref 0 (clearConversation "r1" store_streaming)) = true ∧
  websockets (clearConversation "r1" store_streaming) !! "r1" = Some 0.
Proof.
  destruct (clearConversation_effect "r1" store_streaming) as (Hd & _ & Hws & _ & _).
  { apply (wf_ws_onmessage 0 "12:00:01" (JsonData (frame "chunk" "Hel")) store_connected);
      [reflexivity | apply wf_store_connected]. }
  rewrite Hws. change (deref 0) with (deref (getConversation "r1" store_streaming).1).
  rewrite Hd. split; [reflexivity |]. split; reflexivity.
Defined.

(** What [close()] on a list of sockets does to each socket of the store. *)
Lemma sockets_foldr_ws_close (ws : list nat) w st :
  sockets (foldr ws_close st ws) !! w =
  (if decide (w ∈ ws)
   then (λ s, match readyState s with
              | CLOSING | CLOSED => s
              | _ => set_readyState CLOSING s
              end) <$> sockets st !! w
   else sockets st !! w).
Proof.
  induction ws as [|x ws IH].
  - destruct (decide (w ∈ [])) as [H|_]; [by apply elem_of_nil in H | done].
  - change (foldr ws_close st (x :: ws)) with (ws_close x (foldr ws_close st ws)).
    unfold ws_close at 1. simpl. rewrite lookup_alter.
    destruct (decide (x = w)) as [->|Hne].
    + rewrite IH.
      destruct (decide (w ∈ w :: ws)) as [_|Hn]; [| exfalso; apply Hn; left].
      destruct (decide (w ∈ ws)); [| done].
      destruct (sockets st !! w) as [s|]; simpl; [| done].
      destruct (readyState s) eqn:E; simpl; by rewrite ?E.
    + rewrite IH. destruct (decide (w ∈ ws)) as [Hin|Hnin].
      * destruct (decide (w ∈ x :: ws)) as [_|Hn]; [done |].
        exfalso. apply Hn. by right.
      * destruct (decide (w ∈ x :: ws)) as [Hin|_]; [| done].
        apply elem_of_cons in Hin as [->|Hin]; done.
Qed.

(** X13. [clearAllConversations] calls [close()] on every registered
    socket and on no other: afterwards a socket that was registered is
    closing or closed, while a socket that was not (one still connecting,
    say) is exactly as before; the registry and the conversations map are
    empty and no research id is active. *)
Theorem clearAllConversations_closes_registered st :
  conversations (clearAllConversations st) = ∅ ∧
  websockets (clearAllConversations st) = ∅ ∧
  activeResearchId (clearAllConversations st) = None ∧
  heap (clearAllConversations st) = heap st ∧
  (∀ k w ws, websockets st !! k = Some w → sockets st !! w = Some ws →
     ∃ ws', sockets (clearAllConversations st) !! w = Some ws' ∧
            closing_or_closed ws' ∧ ws_sent ws' = ws_sent ws) ∧
  (∀ w, (∀ k, websockets st !! k ≠ Some w) →
     sockets (clearAllConversations st) !! w = sockets st !! w).
Proof.
  unfold clearAllConversations. simpl. repeat split.
  - apply heap_foldr_ws_close.
  - intros k w ws Hk Hw. rewrite sockets_foldr_ws_close, decide_True.
    + rewrite Hw. simpl. eexists. split; [reflexivity |].
      unfold closing_or_closed.
      destruct (readyState ws) eqn:E; simpl; rewrite ?E; split; auto.
    + apply list_elem_of_fmap. exists (k, w). split; [done |].
      by apply elem_of_map_to_list.
  - intros w Hno. rewrite sockets_foldr_ws_close, decide_False; [done |].
    intros Hin. apply list_elem_of_fmap in Hin as ([k w'] & -> & Hin).
    apply elem_of_map_to_list in Hin. by apply (Hno k).
Qed.

Lemma clearAllConversations_closes_registered_witness :
  ∃ ws', sockets (clearAllConversations store_connected) !! 0 = Some ws' ∧
         closing_or_closed ws'.
Proof.
  destruct (clearAllConversations_closes_registered store_connected)
    as (_ & _ & _ & _ & Hclose & _).
  destruct (Hclose "r1" 0
              {| url := "ws://localhost:8000/api/v1/chat/ws/r1"; readyState := OPEN;
                 ws_conversation := 0; ws_researchId := "r1";
                 ws_promise := Resolved; ws_sent := [] |} eq_refl eq_refl)
    as (ws' & Hw & Hc & _).
  exists ws'. split; [exact Hw | exact Hc].
Defined.

(** X14. After [clearAllConversations], [getConversation] gives every
    research id a new, empty state: the reference it returns is not one of
    the objects that existed before, and the object it points to has no
    message, no error and both flags false; [currentConversation] returns
    null. *)
Theorem clearAllConversations_then_fresh k st :
  heap st !! (getConversation k (clearAllConversations st)).1 = None ∧
  deref (getConversation k (clearAllConversations st)).1
        (getConversation k (clearAllConversations st)).2 = new_ChatState ∧
  currentConversation (clearAllConversations st) = (None, clearAllConversations st).
Proof.
  assert (Hc : conversations (clearAllConversations st) !! k = None) by done.
  assert (Hh : heap (clearAllConversations st) = heap st).
  { unfold clearAllConversations. simpl. apply heap_foldr_ws_close. }
  unfold getConversation. rewrite Hc, !Hh. simpl. split; [| split].
  - apply not_elem_of_dom, is_fresh.
  - unfold deref. simpl. by rewrite lookup_insert_eq.
  - done.
Qed.

(** ** Independence of research ids *)







(** ** The outcome of a request/response send *)

(** X16. After [sendMessage] the [error] field is null exactly when the
    call succeeded.  When it failed, for whatever reason, the transcript
    has gained the user message and nothing else (no rollback, no assistant
    message); when the request itself failed with a non-empty detail from
    the server, the [error] field holds that detail. *)
Theorem sendMessage_outcome k text now token response st :
  wf st →
  let l := (getConversation k st).1 in
  let r := sendMessage k text now token response st in
  (r.1 = Normal tt ↔ error (deref l r.2) = None) ∧
  (∀ err, r.1 = Throw err →
     messages (deref l r.2)
     = messages (deref l (getConversation k st).2) ++ [user_message text now]) ∧
  (∀ detail, truthy token = true → truthy (Some detail) = true →
     response = Throw (AxiosError (Some detail)) →
     r.1 = Throw (AxiosError (Some detail)) ∧ error (deref l r.2) = Some detail).
Proof.
  intros Hwf l r. subst l r. unfold sendMessage.
  pose proof (getConversation_lookup k st Hwf) as [Hk Hl].
  assert (Hl2 : ∀ f g, is_Some (heap (update_conversation (getConversation k st).1 f
                  (update_conversation (getConversation k st).1 g
                     (getConversation k st).2)) !! (getConversation k st).1)).
  { intros f g. simpl. by rewrite !lookup_alter_is_Some. }
  destruct (truthy token) eqn:Ht.
  - rewrite sendMessage_start_token by done.
    destruct response as [data|err]; simpl.
    + split; [| split].
      * split; [| done]. intros _.
        rewrite !deref_update_conversation; try done.
        simpl. by rewrite lookup_alter_is_Some.
      * intros err [=].
      * intros detail _ _ [=].
    + unfold sendMessage_catch. split; [| split].
      * split; [done |]. rewrite deref_update_conversation by apply Hl2. done.
      * intros err' _. rewrite !deref_update_conversation; try done.
        simpl. by rewrite lookup_alter_is_Some.
      * intros detail _ Hd [= ->]. split; [done |].
        rewrite deref_update_conversation by apply Hl2. simpl.
        unfold or_else. simpl in Hd. by destruct (String.eqb detail EmptyString).
  - rewrite sendMessage_start_no_token by done. simpl.
    unfold sendMessage_catch. split; [| split].
    + split; [done |]. rewrite deref_update_conversation by apply Hl2. done.
    + intros err' _. rewrite !deref_update_conversation; try done.
      simpl. by rewrite lookup_alter_is_Some.
    + intros detail [=].
Qed.

Lemma sendMessage_outcome_witness :
  error (deref 0 (sendMessage "r1" "hi" "12:00:05" (Some "token")
                    (Throw (AxiosError (Some "Research not found")))
                    store_connected).2)
  = Some "Research not found" ∧
  messages (deref 0 (sendMessage "r1" "hi" "12:00:05" (Some "token")
                       (Throw (AxiosError (Some "Research not found")))
                       store_connected).2)
  = [user_message "hi" "12:00:05"].
Proof.
  destruct (sendMessage_outcome "r1" "hi" "12:00:05" (Some "token")
              (Throw (AxiosError (Some "Research not found")))
              store_connected wf_store_connected)
    as (_ & Hmsg & Hdetail).
  split.
  - apply (Hdetail "Research not found"); reflexivity.
  - apply (Hmsg (AxiosError (Some "Research not found"))). reflexivity.
Defined.

(** ** The active research *)

(** X17. [setActiveResearch] makes the research id the active one and
    gives it a state exactly as [getConversation] would (the same
    reference, the same map, the same objects).  [currentConversation]
    then returns that reference without changing the store, unless the
    research id is the empty string: then it returns null, although the
    state exists.  It also returns null, and changes nothing, when no
    research id is active. *)
Theorem setActiveResearch_current k st :
  activeResearchId (setActiveResearch k st) = Some k ∧
  conversations (setActiveResearch k st) = conversations (getConversation k st).2 ∧
  heap (setActiveResearch k st) = heap (getConversation k st).2 ∧
  conversations (setActiveResearch k st) !! k = Some (getConversation k st).1 ∧
  (k ≠ EmptyString →
   currentConversation (setActiveResearch k st)
   = (Some (getConversation k st).1, setActiveResearch k st)) ∧
  (k = EmptyString →
   currentConversation (setActiveResearch k st) = (None, setActiveResearch k st)) ∧
  (activeResearchId st = None → currentConversation st = (None, st)).
Proof.
  assert (Ha : activeResearchId (setActiveResearch k st) = Some k).
  { unfold setActiveResearch. simpl. by destruct (conversations st !! k). }
  assert (Hc : conversations (setActiveResearch k st) !! k = Some (getConversation k st).1).
  { unfold setActiveResearch, getConversation. simpl.
    destruct (conversations st !! k) eqn:E; simpl; [done |]. by rewrite lookup_insert_eq. }
  split; [done |]. split; [| split; [| split; [done | split; [| split]]]].
  - unfold setActiveResearch, getConversation. simpl.
    by destruct (conversations st !! k).
  - unfold setActiveResearch, getConversation. simpl.
    by destruct (conversations st !! k).
  - intros Hk. unfold currentConversation. rewrite Ha. simpl.
    apply String.eqb_neq in Hk. rewrite Hk. simpl.
    by rewrite (getConversation_existing k (getConversation k st).1).
  - intros ->. unfold currentConversation. by rewrite Ha.
  - intros Hn. unfold currentConversation. by rewrite Hn.
Qed.

Lemma setActiveResearch_current_witness :
  currentConversation (setActiveResearch "r1" empty_store)
  = (Some 0, setActiveResearch "r1" empty_store) ∧
  currentConversation (setActiveResearch EmptyString empty_store)
  = (None, setActiveResearch EmptyString empty_store).
Proof.
  split.
  - destruct (setActiveResearch_current "r1" empty_store)
      as (_ & _ & _ & _ & Hcur & _).
    apply Hcur. discriminate.
  - destruct (setActiveResearch_current EmptyString empty_store)
      as (_ & _ & _ & _ & _ & Hnull & _).
    by apply Hnull.
Defined.

(** ** The registry in reachable stores *)

Lemma registry_sound_ext st st' :
  websockets st' = websockets st → sockets st' = sockets st →
  registry_sound st → registry_sound st'.
Proof. unfold registry_sound. intros -> ->. done. Qed.

Lemma registry_sound_update_socket w f st :
  (∀ ws, ws_researchId (f ws) = ws_researchId ws) →
  (∀ ws, readyState ws ≠ CONNECTING → readyState (f ws) ≠ CONNECTING) →
  registry_sound st → registry_sound (update_socket w f st).
Proof.
  intros Hid Hrs H k w' Hk. destruct (H k w' Hk) as (ws & Hw & Hk' & Hr).
  simpl. rewrite lookup_alter. case_decide; [subst w' | by eauto].
  rewrite Hw. simpl. eexists. split; [done |]. split; [by rewrite Hid | by apply Hrs].
Qed.

Lemma registry_sound_ws_close w st : registry_sound st → registry_sound (ws_close w st).
Proof.
  apply registry_sound_update_socket.
  - intros ws. by destruct (readyState ws).
  - intros ws H. destruct (readyState ws) eqn:E; simpl; rewrite ?E; done.
Qed.

Lemma registry_sound_settle v w st :
  registry_sound st → registry_sound (update_socket w (settle v) st).
Proof.
  apply registry_sound_update_socket; intros ws; unfold settle;
    by destruct (ws_promise ws).
Qed.

Lemma registry_sound_getConversation k st :
  registry_sound st → registry_sound (getConversation k st).2.
Proof.
  destruct (getConversation_sockets k st) as [Hws Hso].
  by apply registry_sound_ext.
Qed.

Lemma registry_sound_connectWebSocket env k token st :
  registry_sound st → registry_sound (connectWebSocket env k token st).2.
Proof.
  intros H. apply (registry_sound_getConversation k) in H.
  unfold connectWebSocket. destruct (getConversation k st) as [l st0]. simpl in H.
  set (st1 := match websockets st0 !! k with
              | Some existingWs => ws_close existingWs st0
              | None => st0
              end).
  assert (H1 : registry_sound st1).
  { unfold st1. destruct (websockets st0 !! k); [by apply registry_sound_ws_close | done]. }
  destruct (negb (truthy token)); simpl; [done |].
  intros k' w Hk'. destruct (H1 k' w Hk') as (ws & Hw & Hrest).
  exists ws. split; [| done]. simpl. rewrite lookup_insert_ne; [done |].
  intros Heq. apply (is_fresh (dom (sockets st1))). rewrite Heq.
  apply elem_of_dom. eauto.
Qed.

Lemma registry_sound_ws_onopen w st : registry_sound st → registry_sound (ws_onopen w st).
Proof.
  intros H. unfold ws_onopen. destruct (sockets st !! w) as [ws|] eqn:Hw; [| done].
  apply registry_sound_settle.
  intros k w'. simpl. rewrite lookup_insert_Some. intros [[<- <-]|[Hne Hk]].
  - rewrite lookup_alter_eq, Hw. simpl. eexists. by split.
  - destruct (H k w' Hk) as (ws' & Hw' & Hid & Hr).
    rewrite lookup_alter. case_decide; [subst w' | by eauto].
    rewrite Hw. simpl. eexists. split; [done |]. split; [| done]. simpl. congruence.
Qed.

Lemma registry_sound_ws_onerror w st : registry_sound st → registry_sound (ws_onerror w st).
Proof.
  intros H. unfold ws_onerror. destruct (sockets st !! w) as [ws|]; [| done].
  apply registry_sound_settle.
  by apply (registry_sound_ext (update_socket w (set_readyState CLOSED) st)),
    registry_sound_update_socket.
Qed.

Lemma registry_sound_ws_onclose w st : registry_sound st → registry_sound (ws_onclose w st).
Proof.
  intros H. unfold ws_onclose. destruct (sockets st !! w) as [ws|] eqn:Hw; [| done].
  intros k w'. simpl. rewrite lookup_delete_Some. intros [Hne Hk].
  destruct (H k w' Hk) as (ws' & Hw' & Hid & Hr).
  rewrite lookup_alter_ne; [by eauto |]. intros <-. congruence.
Qed.

Lemma registry_sound_disconnectWebSocket k st :
  registry_sound st → registry_sound (disconnectWebSocket k st).
Proof.
  intros H. unfold disconnectWebSocket.
  set (st1 := match websockets st !! k with
              | Some ws => set_websockets (delete k (websockets st)) (ws_close ws st)
              | None => st
              end).
  assert (H1 : registry_sound st1).
  { unfold st1. destruct (websockets st !! k) as [w0|] eqn:Hk0; [| done].
    intros k' w'. simpl. rewrite lookup_delete_Some. intros [Hne Hk'].
    by apply (registry_sound_ws_close w0 st H k' w'). }
  apply (registry_sound_getConversation k) in H1.
  destruct (getConversation k st1) as [l st2]. by simpl in *.
Qed.

Lemma registry_sound_step st st' : step st st' → registry_sound st → registry_sound st'.
Proof.
  intros Hst Hrs. destruct Hst.
  - by apply registry_sound_getConversation.
  - unfold currentConversation.
    destruct (negb (truthy (activeResearchId st))); [done |].
    destruct (activeResearchId st) as [k|]; [| done].
    apply (registry_sound_getConversation k) in Hrs.
    by destruct (getConversation k st).
  - unfold setActiveResearch. simpl. by destruct (conversations st !! researchId).
  - apply (registry_sound_getConversation researchId) in Hrs.
    unfold sendMessage_start. destruct (getConversation researchId st) as [l st0].
    by destruct (negb (truthy token)).
  - by destruct response.
  - by apply registry_sound_connectWebSocket.
  - by apply registry_sound_ws_onopen.
  - unfold ws_onmessage in H.
    destruct (sockets st !! w); [| by inversion H; subst].
    by destruct event_data; simpl in H; inversion H; subst.
  - by apply registry_sound_ws_onerror.
  - by apply registry_sound_ws_onclose.
  - apply (registry_sound_getConversation researchId) in Hrs.
    unfold sendWebSocketMessage. destruct (getConversation researchId st) as [l st0].
    destruct (not_open _ _); simpl; [done |].
    destruct (websockets st0 !! researchId) as [w|]; simpl; [| done].
    by apply (registry_sound_update_socket w _ (update_conversation l _ st0)).
  - by apply registry_sound_disconnectWebSocket.
  - apply (registry_sound_getConversation researchId) in Hrs.
    unfold clearConversation. by destruct (getConversation researchId st).
  - intros k w Hk. unfold clearAllConversations in Hk. simpl in Hk.
    by rewrite lookup_empty in Hk.
Qed.

(** X18. In every store the application can reach, whatever the order of
    calls and socket events, a research id is registered only with a socket
    that exists, was created for that very research id, and on which the
    open event has come: a registered socket is never still connecting.
    (It may be open, closing, or closed: after an error event a closed
    socket stays registered until its close event.) *)
Theorem registry_sound_reachable st k w :
  reachable st →
  websockets st !! k = Some w →
  ∃ ws, sockets st !! w = Some ws ∧ ws_researchId ws = k ∧
        readyState ws ≠ CONNECTING.
Proof.
  intros Hr. revert k w. change (registry_sound st).
  eapply (rtc_ind_r (λ s, registry_sound s)); [| | exact Hr].
  - intros k w Hk. simpl in Hk. by rewrite lookup_empty in Hk.
  - intros y z _ Hstep IH. by eapply registry_sound_step.
Qed.

Lemma registry_sound_reachable_witness :
  ∃ ws, sockets (ws_onerror 0 store_connected) !! 0 = Some ws ∧
        ws_researchId ws = "r1" ∧ readyState ws ≠ CONNECTING.
Proof.
  apply (registry_sound_reachable (ws_onerror 0 store_connected) "r1" 0);
    [| reflexivity].
  eapply rtc_l; [apply (step_connectWebSocket None "r1" (Some "token")) |].
  eapply rtc_l; [apply (step_ws_onopen 0) |].
  eapply rtc_l; [apply (step_ws_onerror 0) |].
  apply rtc_refl.
Defined.

(** ** The chat panel *)

Lemma sendMessage_after_getConversation k text now token response st :
  sendMessage k text now token response (getConversation k st).2
  = sendMessage k text now token response st.
Proof.
  pose proof (getConversation_registered k st) as Hreg.
  unfold sendMessage, sendMessage_start.
  destruct (getConversation k st) as [l st0]. simpl in Hreg |- *.
  by rewrite (getConversation_existing k l st0 Hreg).
Qed.

(** The store a streaming send leaves when the registered socket is open. *)
Lemma sendWebSocketMessage_sent k l c w ws text now st :
  conversations st !! k = Some l →
  heap st !! l = Some c →
  websockets st !! k = Some w →
  sockets st !! w = Some ws →
  readyState ws = OPEN →
  sendWebSocketMessage k text now st =
  (Normal tt,
   set_sockets
     (<[w := set_ws_sent
               (ws_sent ws ++ [{| frame_message := text;
                                  frame_history := messages c |}]) ws]> (sockets st))
     (set_heap (<[l := push (user_message text now) c]> (heap st)) st)).
Proof.
  intros Hk Hl Hw Hs Hopen. unfold sendWebSocketMessage.
  rewrite (getConversation_existing k l) by done.
  rewrite Hw. unfold not_open. rewrite Hs, Hopen. simpl.
  rewrite (update_conversation_lookup l _ c) by done.
  unfold ws_send, update_socket, deref. simpl.
  rewrite lookup_insert_eq. simpl. rewrite slice_init. do 2 f_equal.
  apply map_eq. intros j. rewrite lookup_alter, lookup_insert.
  case_decide; subst; [by rewrite Hs | done].
Qed.

(** X19. The panel sends nothing when the trimmed input is empty, when a
    send is already under way, or when the conversation is streaming: its
    own state is unchanged and the store is the one it found, or that store
    with the conversation state created by the read of [isStreaming]; no
    message is added and no socket is used. *)
Theorem panel_send_blocked trim props now token response scroll p st :
  truthy (Some (trim (AIChatPanel.messageInput p))) = false ∨
  AIChatPanel.isLoading p = true ∨
  isStreaming (deref (getConversation (AIChatPanel.researchId props) st).1
                 (getConversation (AIChatPanel.researchId props) st).2) = true →
  (AIChatPanel.sendMessage trim props now token response scroll p st).1 = p ∧
  ((AIChatPanel.sendMessage trim props now token response scroll p st).2 = st ∨
   (AIChatPanel.sendMessage trim props now token response scroll p st).2
   = (getConversation (AIChatPanel.researchId props) st).2).
Proof.
  intros H. unfold AIChatPanel.sendMessage.
  destruct (truthy (Some (trim (AIChatPanel.messageInput p)))) eqn:Hm; simpl;
    [| by auto].
  destruct (AIChatPanel.isLoading p) eqn:Hload; simpl; [by auto |].
  destruct H as [H|[H|H]]; try done.
  destruct (getConversation (AIChatPanel.researchId props) st) as [l st0].
  simpl in H. rewrite H. simpl. auto.
Qed.

Lemma panel_send_blocked_witness :
  AIChatPanel.sendMessage (λ s, s)
    {| AIChatPanel.researchId := "r1"; AIChatPanel.enableStreaming := true |}
    "12:00:02" (Some "token") (Throw (AxiosError None)) (Normal tt)
    {| AIChatPanel.messageInput := "q"; AIChatPanel.isLoading := false |}
    store_streaming
  = ({| AIChatPanel.messageInput := "q"; AIChatPanel.isLoading := false |},
     store_streaming).
Proof.
  destruct (panel_send_blocked (λ s, s)
              {| AIChatPanel.researchId := "r1"; AIChatPanel.enableStreaming := true |}
              "12:00:02" (Some "token") (Throw (AxiosError None)) (Normal tt)
              {| AIChatPanel.messageInput := "q"; AIChatPanel.isLoading := false |}
              store_streaming) as [Hp Hst].
  - right. right. reflexivity.
  - reflexivity.
Defined.

(** X20. With streaming enabled, the conversation connected and idle, and
    an open socket registered, the panel sends the trimmed input over the
    socket, whatever the credential: the transcript gains the user message,
    the socket gets one frame with the transcript before the send as
    history, the [error] field is untouched, the input is cleared and
    [isLoading] ends false. *)
Theorem panel_send_streaming trim props now token response scroll p st l c w ws :
  truthy (Some (trim (AIChatPanel.messageInput p))) = true →
  AIChatPanel.isLoading p = false →
  AIChatPanel.enableStreaming props = true →
  conversations st !! AIChatPanel.researchId props = Some l →
  heap st !! l = Some c →
  isStreaming c = false →
  isConnected c = true →
  websockets st !! AIChatPanel.researchId props = Some w →
  sockets st !! w = Some ws →
  readyState ws = OPEN →
  ∃ st',
    AIChatPanel.sendMessage trim props now token response scroll p st
    = ({| AIChatPanel.messageInput := EmptyString; AIChatPanel.isLoading := false |}, st') ∧
    heap st' = <[l := push (user_message (trim (AIChatPanel.messageInput p)) now) c]>
                 (heap st) ∧
    sockets st' =
      <[w := set_ws_sent
               (ws_sent ws ++
                [{| frame_message := trim (AIChatPanel.messageInput p);
                    frame_history := messages c |}]) ws]> (sockets st) ∧
    conversations st' = conversations st ∧
    websockets st' = websockets st.
Proof.
  intros Hm Hload Hen Hk Hl Hs Hc Hw Hso Hopen. unfold AIChatPanel.sendMessage.
  rewrite Hm, Hload. simpl.
  rewrite (getConversation_existing _ l) by done.
  rewrite (deref_lookup l c) by done. rewrite Hs, Hen, Hc. simpl.
  rewrite (sendWebSocketMessage_sent _ l c w ws) by done.
  destruct scroll; eexists; (split; [reflexivity | by repeat split]).
Qed.

Lemma panel_send_streaming_witness :
  ∃ st',
    AIChatPanel.sendMessage (λ s, s)
      {| AIChatPanel.researchId := "r1"; AIChatPanel.enableStreaming := true |}
      "12:00:02" None (Throw (AxiosError None)) (Normal tt)
      {| AIChatPanel.messageInput := "q"; AIChatPanel.isLoading := false |}
      store_connected
    = ({| AIChatPanel.messageInput := EmptyString; AIChatPanel.isLoading := false |},
       st') ∧
    ws_sent <$> sockets st' !! 0
    = Some [{| frame_message := "q"; frame_history := [] |}].
Proof.
  destruct (panel_send_streaming (λ s, s)
              {| AIChatPanel.researchId := "r1"; AIChatPanel.enableStreaming := true |}
              "12:00:02" None (Throw (AxiosError None)) (Normal tt)
              {| AIChatPanel.messageInput := "q"; AIChatPanel.isLoading := false |}
              store_connected 0 (set_isConnected true new_ChatState) 0
              {| url := "ws://localhost:8000/api/v1/chat/ws/r1"; readyState := OPEN;
                 ws_conversation := 0; ws_researchId := "r1";
                 ws_promise := Resolved; ws_sent := [] |})
    as (st' & E & _ & Hso & _); try reflexivity.
  exists st'. split; [exact E |]. rewrite Hso. reflexivity.
Defined.

(** X21. When streaming is disabled or the conversation is not connected,
    the panel (with a non-empty input, not loading, conversation idle)
    goes through the store's request/response [sendMessage]: the
    conversations, sockets and registry it leaves are those of that call;
    the input is cleared when the call succeeded and kept when it failed,
    and [isLoading] ends false either way; the exception is not passed on. *)
Theorem panel_send_http trim props now token response scroll p st :
  truthy (Some (trim (AIChatPanel.messageInput p))) = true →
  AIChatPanel.isLoading p = false →
  isStreaming (deref (getConversation (AIChatPanel.researchId props) st).1
                 (getConversation (AIChatPanel.researchId props) st).2) = false →
  AIChatPanel.enableStreaming props = false ∨
  isConnected (deref (getConversation (AIChatPanel.researchId props) st).1
                 (getConversation (AIChatPanel.researchId props) st).2) = false →
  let r := sendMessage (AIChatPanel.researchId props)
             (trim (AIChatPanel.messageInput p)) now token response st in
  let out := AIChatPanel.sendMessage trim props now token response scroll p st in
  out.1 = {| AIChatPanel.messageInput :=
               match r.1 with
               | Normal _ => EmptyString
               | Throw _ => AIChatPanel.messageInput p
               end;
             AIChatPanel.isLoading := false |} ∧
  heap out.2 = heap r.2 ∧
  conversations out.2 = conversations r.2 ∧
  websockets out.2 = websockets r.2 ∧
  sockets out.2 = sockets r.2.
Proof.
  intros Hm Hload Hs Hhttp r out. subst r out. unfold AIChatPanel.sendMessage.
  rewrite Hm, Hload. simpl.
  pose proof (sendMessage_after_getConversation (AIChatPanel.researchId props)
                (trim (AIChatPanel.messageInput p)) now token response st) as E.
  destruct (getConversation (AIChatPanel.researchId props) st) as [l st0].
  simpl in *. rewrite Hs.
  assert (AIChatPanel.enableStreaming props && isConnected (deref l st0) = false) as ->.
  { destruct Hhttp as [->| ->]; [done | by rewrite andb_false_r]. }
  rewrite E.
  destruct (sendMessage _ _ _ _ _ st) as [[[]|err] st1]; simpl.
  - by destruct scroll.
  - done.
Qed.

Lemma panel_send_http_witness :
  (AIChatPanel.sendMessage (λ s, s)
     {| AIChatPanel.researchId := "r1"; AIChatPanel.enableStreaming := false |}
     "12:00:02" None (Throw (AxiosError None)) (Normal tt)
     {| AIChatPanel.messageInput := "q"; AIChatPanel.isLoading := false |}
     store_connected).1
  = {| AIChatPanel.messageInput := "q"; AIChatPanel.isLoading := false |}.
Proof.
  destruct (panel_send_http (λ s, s)
              {| AIChatPanel.researchId := "r1"; AIChatPanel.enableStreaming := false |}
              "12:00:02" None (Throw (AxiosError None)) (Normal tt)
              {| AIChatPanel.messageInput := "q"; AIChatPanel.isLoading := false |}
              store_connected eq_refl eq_refl eq_refl (or_introl eq_refl))
    as (Hp & _).
  exact Hp.
Defined.

(** X22. With streaming enabled and the conversation still marked
    connected while the registered socket is no longer open (or none is
    registered), the panel's send fails silently: the store's streaming
    send throws, the panel only writes a console line, and no message is
    added, the [error] field and the sockets stay as they were, and the
    input is kept. *)
Theorem panel_send_socket_not_open trim props now token response scroll p st l c :
  truthy (Some (trim (AIChatPanel.messageInput p))) = true →
  AIChatPanel.isLoading p = false →
  AIChatPanel.enableStreaming props = true →
  conversations st !! AIChatPanel.researchId props = Some l →
  heap st !! l = Some c →
  isStreaming c = false →
  isConnected c = true →
  not_open (websockets st !! AIChatPanel.researchId props) st = true →
  AIChatPanel.sendMessage trim props now token response scroll p st
  = ({| AIChatPanel.messageInput := AIChatPanel.messageInput p;
        AIChatPanel.isLoading := false |},
     set_console (console st ++ ["Failed to send message:"]) st).
Proof.
  intros Hm Hload Hen Hk Hl Hs Hc Hno. unfold AIChatPanel.sendMessage.
  rewrite Hm, Hload. simpl.
  rewrite (getConversation_existing _ l) by done.
  rewrite (deref_lookup l c) by done. rewrite Hs, Hen, Hc. simpl.
  unfold sendWebSocketMessage. rewrite (getConversation_existing _ l) by done.
  by rewrite Hno.
Qed.

Lemma panel_send_socket_not_open_witness :
  heap (AIChatPanel.sendMessage (λ s, s)
          {| AIChatPanel.researchId := "r1"; AIChatPanel.enableStreaming := true |}
          "12:00:02" (Some "token") (Throw (AxiosError None)) (Normal tt)
          {| AIChatPanel.messageInput := "q"; AIChatPanel.isLoading := false |}
          (connectWebSocket None "r1" (Some "token") store_connected).2).2
  = heap store_connected.
Proof.
  rewrite (panel_send_socket_not_open (λ s, s)
             {| AIChatPanel.researchId := "r1"; AIChatPanel.enableStreaming := true |}
             "12:00:02" (Some "token") (Throw (AxiosError None)) (Normal tt)
             {| AIChatPanel.messageInput := "q"; AIChatPanel.isLoading := false |}
             (connectWebSocket None "r1" (Some "token") store_connected).2
             0 (set_isConnected true new_ChatState));
    reflexivity.
Defined.

(** ** A reply that arrives after a clear *)

(** X23. The continuation of [sendMessage] writes to the conversation
    object it captured before the request.  When [clearAllConversations]
    runs while the request is under way, the reply lands in that old
    object, which no research id refers to any more: the state
    [getConversation] then gives the research id is another object, and it
    stays empty.  When only [clearConversation] ran, the object is the same
    and the reply is the single message of the emptied transcript. *)
Theorem reply_after_clear k text now token data st :
  wf st →
  truthy token = true →
  let l := (getConversation k st).1 in
  let st1 := (sendMessage_start k text now token st).2 in
  (sendMessage_start k text now token st).1 = Normal l ∧
  (let st2 := clearAllConversations st1 in
   let l' := (getConversation k st2).1 in
   let st3 := (sendMessage_settle l (Normal data) (getConversation k st2).2).2 in
   l' ≠ l ∧
   conversations st3 !! k = Some l' ∧
   deref l' st3 = new_ChatState ∧
   messages (deref l st3)
   = messages (deref l (getConversation k st).2) ++
     [user_message text now;
      {| role := assistant; content := response_content data;
         timestamp := response_timestamp data;
         tool_uses := response_tool_uses data |}]) ∧
  (let st3 := (sendMessage_settle l (Normal data) (clearConversation k st1)).2 in
   conversations st3 !! k = Some l ∧
   messages (deref l st3)
   = [{| role := assistant; content := response_content data;
         timestamp := response_timestamp data;
         tool_uses := response_tool_uses data |}]).
Proof.
  intros Hwf Ht l st1. subst l st1.
  pose proof (getConversation_lookup k st Hwf) as [Hk [c Hc]].
  rewrite sendMessage_start_token by done. simpl.
  set (l := (getConversation k st).1) in *.
  set (st0 := (getConversation k st).2) in *.
  set (st1 := update_conversation l (set_error None)
                (update_conversation l (push (user_message text now)) st0)).
  assert (Hl1 : heap st1 !! l
                = Some (set_error None (push (user_message text now) c))).
  { unfold st1. simpl. by rewrite !lookup_alter_eq, Hc. }
  assert (Hk1 : conversations st1 !! k = Some l) by done.
  rewrite (deref_lookup l c st0 Hc). clearbody st1.
  split; [done |]. split.
  - assert (Hh2 : heap (clearAllConversations st1) = heap st1).
    { unfold clearAllConversations. simpl. apply heap_foldr_ws_close. }
    assert (Hc2 : conversations (clearAllConversations st1) !! k = None) by done.
    unfold getConversation. rewrite Hc2, !Hh2. simpl.
    set (l' := fresh (dom (heap st1))).
    assert (Hne : l' ≠ l).
    { intros Heq. apply (is_fresh (dom (heap st1))). fold l'. rewrite Heq.
      apply elem_of_dom. eauto. }
    split; [done |]. split; [by rewrite lookup_insert_eq |]. split.
    + unfold deref. simpl. by rewrite lookup_alter_ne, lookup_insert_eq by done.
    + unfold deref. simpl.
      rewrite lookup_alter_eq, lookup_insert_ne, Hl1 by done. simpl.
      by rewrite <- app_assoc.
  - assert (Hcc : clearConversation k st1
                  = update_conversation l (set_error None)
                      (update_conversation l (set_messages []) st1)).
    { unfold clearConversation. by rewrite (getConversation_existing k l st1 Hk1). }
    rewrite Hcc. simpl. split; [done |].
    unfold deref. simpl. by rewrite !lookup_alter_eq, Hl1.
Qed.

Lemma reply_after_clear_witness :
  deref
    (getConversation "r1"
       (clearAllConversations
          (sendMessage_start "r1" "hi" "12:00:05" (Some "token") store_connected).2)).1
    (sendMessage_settle (getConversation "r1" store_connected).1
       (Normal {| response_content := "hello"; response_timestamp := "12:00:09";
                  response_tool_uses := None |})
       (getConversation "r1"
          (clearAllConversations
             (sendMessage_start "r1" "hi" "12:00:05" (Some "token")
                store_connected).2)).2).2
  = new_ChatState.
Proof.
  destruct (reply_after_clear "r1" "hi" "12:00:05" (Some "token")
              {| response_content := "hello"; response_timestamp := "12:00:09";
                 response_tool_uses := None |}
              store_connected wf_store_connected eq_refl)
    as (_ & (_ & _ & Hnew & _) & _).
  exact Hnew.
Defined.
